(** * SMADR: the four-stage agent pipeline of [src/index.tsx]

    A shallow embedding of the two closures of the [App] component that
    carry the logic of the program, [callGenerativeAI] (the provider
    adapter) and [handleSubmit] (the orchestrator), together with an
    interpreter for them, and the properties of the pipeline proved on it.

    The program is asynchronous: it suspends at every [await] on the
    network, and React keeps serving UI events (in particular
    [handleSaveSettings]) while it is suspended.  Programs are therefore
    syntax trees of a small monad with exceptions, [prog], whose
    interpreter [run] threads the React state, asks a network oracle for
    the outcome of each request and lets the events scheduled for a
    suspension point act on the state before the program resumes. *)

From Stdlib Require Import String Ascii DecimalString List NArith Arith Bool Lia.
Import ListNotations.

Set Warnings "-register-all".

(** ** JavaScript strings and values *)

(** A JavaScript string is a sequence of UTF-16 code units. *)
Definition jsstring := list N.

(** An ASCII literal of the source, as code units. *)
Definition lit (s : string) : jsstring :=
  map N_of_ascii (list_ascii_of_string s).

Definition dq : jsstring := [34%N].      (* the double quote, U+0022 *)
Definition nl : jsstring := [10%N].      (* line feed, U+000A *)
Definition emdash : jsstring := [8212%N]. (* em dash, U+2014 *)

Definition jsstring_eqb (a b : jsstring) : bool :=
  if list_eq_dec N.eq_dec a b then true else false.

(** ECMAScript WhiteSpace and LineTerminator code points, the ones
    [String.prototype.trim] strips; all of them are single code units. *)
Definition isWhiteSpace (c : N) : bool :=
  existsb (N.eqb c)
    [9; 10; 11; 12; 13; 32; 160; 5760; 8232; 8233; 8239; 8287; 12288; 65279]%N
  || ((8192 <=? c) && (c <=? 8202))%N.

Fixpoint trimStart (s : jsstring) : jsstring :=
  match s with
  | c :: s' => if isWhiteSpace c then trimStart s' else s
  | [] => []
  end.

Definition trimEnd (s : jsstring) : jsstring := rev (trimStart (rev s)).

(** [s.trim()] *)
Definition trim (s : jsstring) : jsstring := trimEnd (trimStart s).

(** The values a response body or an SDK field can hold at run time.  A
    number is represented by what the program can observe of it: its
    rendering by [Number::toString] and whether it is falsy (0 or NaN). *)
Inductive jsval : Type :=
| VUndefined
| VNull
| VBool (b : bool)
| VNum (rendering : jsstring) (falsy : bool)
| VStr (s : jsstring)
| VArr (items : list jsval)
| VObj (fields : list (jsstring * jsval)).

(** [ToBoolean] *)
Definition truthy (v : jsval) : bool :=
  match v with
  | VUndefined | VNull => false
  | VBool b => b
  | VNum _ f => negb f
  | VStr s => match s with [] => false | _ => true end
  | VArr _ | VObj _ => true
  end.

(** [sep]-separated concatenation, as [Array.prototype.join] builds it from
    the renderings of the items. *)
Fixpoint join_strings (sep : jsstring) (l : list jsstring) : jsstring :=
  match l with
  | [] => []
  | [x] => x
  | x :: rest => x ++ sep ++ join_strings sep rest
  end.

(** Whether an object has an own property [key]. *)
Definition has_key (key : jsstring) (fields : list (jsstring * jsval)) : bool :=
  existsb (fun kv => jsstring_eqb (fst kv) key) fields.

(** [ToString], the conversion a template literal applies to [${v}] and
    [Array.prototype.join] to the items of an array; [None] stands for the
    TypeError of a value that cannot be converted to a primitive.  An
    object goes through [toString], then [valueOf]: without an own
    [toString] it inherits the one that gives [object Object]; with one,
    which in a parsed body is never a function, neither method gives a
    primitive and the conversion throws.  An array renders as its items
    joined by commas, [null] and [undefined] items as the empty string, and
    throws when an item does. *)
Fixpoint ToString (v : jsval) : option jsstring :=
  match v with
  | VUndefined => Some (lit "undefined")
  | VNull => Some (lit "null")
  | VBool true => Some (lit "true")
  | VBool false => Some (lit "false")
  | VNum r _ => Some r
  | VStr s => Some s
  | VArr items =>
      option_map (join_strings (lit ","))
        ((fix each (l : list jsval) : option (list jsstring) :=
            match l with
            | [] => Some []
            | x :: rest =>
                match match x with
                      | VUndefined | VNull => Some []
                      | _ => ToString x
                      end with
                | Some s => option_map (cons s) (each rest)
                | None => None
                end
            end) items)
  | VObj fields =>
      if has_key (lit "toString") fields then None
      else Some (lit "[object Object]")
  end.

(** The result of building a string out of values: the string, or the
    first value whose conversion throws. *)
Inductive conversion (A : Type) : Type :=
| Converted (a : A)
| CannotConvert (v : jsval).
Arguments Converted {A} a.
Arguments CannotConvert {A} v.

Definition and_then {A B : Type} (c : conversion A) (k : A -> conversion B)
    : conversion B :=
  match c with
  | Converted a => k a
  | CannotConvert v => CannotConvert v
  end.

Declare Scope conversion_scope.
Delimit Scope conversion_scope with conversion.
Bind Scope conversion_scope with conversion.
Notation "x <~ c ;; k" := (and_then c (fun x => k))
  (at level 61, c at next level, right associativity) : conversion_scope.

(** [${v}] *)
Definition convert (v : jsval) : conversion jsstring :=
  match ToString v with
  | Some s => Converted s
  | None => CannotConvert v
  end.

(** The rendering of an item by [Array.prototype.join]. *)
Definition join_item (v : jsval) : conversion jsstring :=
  match v with
  | VUndefined | VNull => Converted []
  | _ => convert v
  end.

(** The renderings of the items, from the first to the last. *)
Fixpoint join_items (l : list jsval) : conversion (list jsstring) :=
  match l with
  | [] => Converted []
  | v :: rest =>
      (s <~ join_item v ;;
       ss <~ join_items rest ;;
       Converted (s :: ss))%conversion
  end.

(** [l.join(sep)] *)
Definition join (sep : jsstring) (l : list jsval) : conversion jsstring :=
  (ss <~ join_items l ;; Converted (join_strings sep ss))%conversion.

(** [a || b] *)
Definition js_or (a b : jsval) : jsval := if truthy a then a else b.

(** What JavaScript throws: an instance of [Error] (or of a subclass) with
    its [message], or any other value. *)
Inductive thrown : Type :=
| ErrorObject (message : jsstring)
| NonError (v : jsval).

Fixpoint lookup (key : jsstring) (fields : list (jsstring * jsval)) : jsval :=
  match fields with
  | [] => VUndefined
  | (k, v) :: rest => if jsstring_eqb k key then v else lookup key rest
  end.

(** [base.key], for the property names the program reads ([error],
    [message], [choices], [content]: none of them is defined on a built-in
    prototype, so only objects can hold them).  [None] stands for the
    TypeError of reading a property of [undefined] or [null]. *)
Definition getProp (base : jsval) (key : jsstring) : option jsval :=
  match base with
  | VUndefined | VNull => None
  | VObj fields => Some (lookup key fields)
  | _ => Some VUndefined
  end.

(** [base[0]] *)
Definition getIndex0 (base : jsval) : option jsval :=
  match base with
  | VUndefined | VNull => None
  | VObj fields => Some (lookup (lit "0") fields)
  | VArr items => Some (nth 0 items VUndefined)
  | VStr (c :: _) => Some (VStr [c])
  | _ => Some VUndefined
  end.

(** [base?.key] *)
Definition getPropOpt (base : jsval) (key : jsstring) : jsval :=
  match getProp base key with
  | Some v => v
  | None => VUndefined
  end.

(** Decimal rendering of a loop counter. *)
Definition nat_to_jsstring (n : nat) : jsstring :=
  lit (NilEmpty.string_of_uint (Nat.to_uint n)).

(** ** Data model *)

Inductive Role : Type := user | model.

Definition role_name (r : Role) : jsstring :=
  match r with
  | user => lit "user"
  | model => lit "model"
  end.

Record Part : Type := { text : jsval }.

(** [interface Message].  The type says that [text] is a string; what is
    stored is whatever the provider returned, hence [jsval]. *)
Record Message : Type := { role : Role; parts : list Part }.

(** [Content] of the SDK, with the two fields the program sets. *)
Definition Content : Type := Message.

Inductive ApiProvider : Type := google | groq | openrouter.

(** [`${provider}`] *)
Definition provider_name (p : ApiProvider) : jsstring :=
  match p with
  | google => lit "google"
  | groq => lit "groq"
  | openrouter => lit "openrouter"
  end.

Module Keys.
Record t : Type := { google : jsstring; groq : jsstring; openrouter : jsstring }.
End Keys.

Module Settings.
Record t : Type := { provider : ApiProvider; model : jsstring; keys : Keys.t }.
End Settings.

(** The wire format of the OpenAI-compatible providers. *)
Record ChatMessage : Type := { cm_role : jsstring; cm_content : jsstring }.

(** The object handed to [JSON.stringify] for the request body. *)
Record ChatBody : Type := { body_model : jsstring; body_messages : list ChatMessage }.

Record RequestInit : Type := {
  method : jsstring;
  headers : list (jsstring * jsstring);
  body : ChatBody
}.

(** The argument of [ai.models.generateContent]. *)
Record GenerateContentParameters : Type := {
  gc_model : jsstring;
  gc_contents : list Content;
  gc_systemInstruction : jsstring
}.

(** The outcome of a promise, and of a program. *)
Inductive outcome (A : Type) : Type :=
| Fulfilled (a : A)
| Rejected (e : thrown).
Arguments Fulfilled {A} a.
Arguments Rejected {A} e.

(** A [Response] of the Fetch API: its status, and what reading its body
    with [json()] gives (a rejection when the body is not JSON). *)
Record Response : Type := { status : N; json : outcome jsval }.

(** [response.ok] *)
Definition ok (r : Response) : bool := ((200 <=? status r) && (status r <=? 299))%N.

(** The result of [generateContent]; [response_text] is its [text] getter. *)
Record GenerateContentResponse : Type := { response_text : jsval }.

(** An outbound network request. *)
Inductive request : Type :=
| ReqFetch (url : jsstring) (init : RequestInit)
| ReqGenerate (apiKey : jsstring) (params : GenerateContentParameters).

(** One activation of the adapter: its two arguments and how it ended. *)
Record call_record : Type := {
  call_contents : list Content;
  call_systemInstruction : jsstring;
  call_result : outcome jsval
}.

(** The state of the [useState] hooks the orchestrator writes. *)
Record UiState : Type := {
  messages : list Message;
  isLoading : bool;
  loadingStatus : jsstring
}.

(** The settings, in the state hook and in the browser's store. *)
Record Config : Type := {
  apiSettings : Settings.t;            (* the useState hook of the settings *)
  localStorage : option Settings.t     (* the item smadrApiSettings *)
}.

Record World : Type := {
  ui : UiState;
  inputField : jsstring;               (* the value of the form's input *)
  console : list thrown;               (* what console.error was given *)
  cfg : Config;
  netlog : list request;               (* outbound requests, oldest first *)
  calls : list call_record;            (* adapter activations, oldest first *)
  tick : nat                           (* suspension points passed *)
}.

Definition with_ui (f : UiState -> UiState) (w : World) : World :=
  {| ui := f (ui w); inputField := inputField w; console := console w;
     cfg := cfg w; netlog := netlog w; calls := calls w; tick := tick w |}.

Definition with_inputField (s : jsstring) (w : World) : World :=
  {| ui := ui w; inputField := s; console := console w;
     cfg := cfg w; netlog := netlog w; calls := calls w; tick := tick w |}.

Definition with_console (e : thrown) (w : World) : World :=
  {| ui := ui w; inputField := inputField w; console := console w ++ [e];
     cfg := cfg w; netlog := netlog w; calls := calls w; tick := tick w |}.

Definition with_call (c : call_record) (w : World) : World :=
  {| ui := ui w; inputField := inputField w; console := console w;
     cfg := cfg w; netlog := netlog w; calls := calls w ++ [c]; tick := tick w |}.

Definition with_request (r : request) (w : World) : World :=
  {| ui := ui w; inputField := inputField w; console := console w;
     cfg := cfg w; netlog := netlog w ++ [r]; calls := calls w; tick := tick w |}.

(** [handleSaveSettings]: it writes the settings hook and the store, and
    nothing else. *)
Definition handleSaveSettings (newSettings : Settings.t) (c : Config) : Config :=
  {| apiSettings := newSettings; localStorage := Some newSettings |}.

(** What the user can do while a request is in flight: the input is
    disabled, the settings dialog is not. *)
Inductive UiEvent : Type :=
| SaveSettings (newSettings : Settings.t).

Definition dispatch (c : Config) (ev : UiEvent) : Config :=
  match ev with
  | SaveSettings s => handleSaveSettings s c
  end.

(** The events served at each suspension point, by its number. *)
Definition Schedule : Type := nat -> list UiEvent.

Definition quiet : Schedule := fun _ => [].

(** Passing a suspension point: the pending events run, then the program
    resumes. *)
Definition suspend (env : Schedule) (w : World) : World :=
  {| ui := ui w; inputField := inputField w; console := console w;
     cfg := fold_left dispatch (env (tick w)) (cfg w);
     netlog := netlog w; calls := calls w; tick := S (tick w) |}.

(** The providers: the outcome of each request, which may depend on the
    requests sent before it. *)
Record Network : Type := {
  fetch_outcome : list request -> jsstring -> RequestInit -> outcome Response;
  generate_outcome :
    list request -> jsstring -> GenerateContentParameters ->
    outcome GenerateContentResponse
}.

(** ** Programs *)

(** The operations a program awaits. *)
Inductive op : Type -> Type :=
| Fetch (url : jsstring) (init : RequestInit) : op Response
| ResponseJson (r : Response) : op jsval
| GenerateContent (apiKey : jsstring) (params : GenerateContentParameters)
    : op GenerateContentResponse.

(** Asynchronous functions with exceptions.  [Call] marks an activation of
    the adapter, which the interpreter records with its outcome. *)
Inductive prog : Type -> Type :=
| Ret {A : Type} (a : A) : prog A
| Throw {A : Type} (e : thrown) : prog A
| Bind {A B : Type} (p : prog A) (k : A -> prog B) : prog B
| TryCatch {A : Type} (p : prog A) (h : thrown -> prog A) : prog A
| Await {A : Type} (o : op A) : prog A
| SetMessages (f : list Message -> list Message) : prog unit
| SetIsLoading (b : bool) : prog unit
| SetLoadingStatus (s : jsstring) : prog unit
| FormReset : prog unit
| ConsoleError (e : thrown) : prog unit
| Call (contents : list Content) (systemInstruction : jsstring)
    (body : prog jsval) : prog jsval.

Declare Scope prog_scope.
Delimit Scope prog_scope with prog.
Bind Scope prog_scope with prog.
Notation "x <- p ;; q" := (Bind p (fun x => q))
  (at level 61, p at next level, right associativity) : prog_scope.
Notation "p ;; q" := (Bind p (fun _ => q))
  (at level 61, right associativity) : prog_scope.

Section Interpreter.
Variable net : Network.
Variable env : Schedule.

Definition perform {A : Type} (o : op A) (w : World) : outcome A * World :=
  match o in op T return outcome T * World with
  | Fetch url init =>
      (fetch_outcome net (netlog w) url init,
       suspend env (with_request (ReqFetch url init) w))
  | ResponseJson r => (json r, suspend env w)
  | GenerateContent apiKey params =>
      (generate_outcome net (netlog w) apiKey params,
       suspend env (with_request (ReqGenerate apiKey params) w))
  end.

Fixpoint run {A : Type} (p : prog A) (w : World) : outcome A * World :=
  match p in prog T return outcome T * World with
  | Ret a => (Fulfilled a, w)
  | Throw e => (Rejected e, w)
  | Bind p k =>
      match run p w with
      | (Fulfilled a, w1) => run (k a) w1
      | (Rejected e, w1) => (Rejected e, w1)
      end
  | TryCatch p h =>
      match run p w with
      | (Fulfilled a, w1) => (Fulfilled a, w1)
      | (Rejected e, w1) => run (h e) w1
      end
  | Await o => perform o w
  | SetMessages f =>
      (Fulfilled tt,
       with_ui (fun u => {| messages := f (messages u); isLoading := isLoading u;
                            loadingStatus := loadingStatus u |}) w)
  | SetIsLoading b =>
      (Fulfilled tt,
       with_ui (fun u => {| messages := messages u; isLoading := b;
                            loadingStatus := loadingStatus u |}) w)
  | SetLoadingStatus s =>
      (Fulfilled tt,
       with_ui (fun u => {| messages := messages u; isLoading := isLoading u;
                            loadingStatus := s |}) w)
  | FormReset => (Fulfilled tt, with_inputField [] w)
  | ConsoleError e => (Fulfilled tt, with_console e w)
  | Call contents systemInstruction body =>
      match run body w with
      | (r, w1) =>
          (r, with_call {| call_contents := contents;
                           call_systemInstruction := systemInstruction;
                           call_result := r |} w1)
      end
  end.
End Interpreter.

(** ** The program *)

Definition DEFAULT_MODEL_NAME : jsstring := lit "gemini-2.5-flash".

Definition STRATEGIST_SYSTEM_INSTRUCTION : jsstring :=
  lit "You are a master strategist AI. Your task is to analyze the user's query and create a detailed, step-by-step plan for how a team of AI agents should approach answering it. Identify key areas to research, potential ambiguities to clarify, and the best structure for the final response. This plan will guide the other agents.".

Definition INITIAL_SYSTEM_INSTRUCTION : jsstring :=
  lit "You are an expert-level AI assistant. Your task is to provide a comprehensive, accurate, and well-reasoned initial response to the user's query, strictly following the provided execution plan. Aim for clarity and depth. Note: Your response is an intermediate step for other AI agents and will not be shown to the user. Be concise and focus on core information without unnecessary verbosity.".

Definition REFINEMENT_SYSTEM_INSTRUCTION : jsstring :=
  lit "You are a reflective AI agent. Your primary task is to find flaws. Critically analyze your previous response and the responses from other AI agents, considering the original execution plan. Focus specifically on identifying factual inaccuracies, logical fallacies, omissions, or any other weaknesses. Your goal is to generate a new, revised response that corrects these specific errors and is free from the flaws you have identified. Note: This refined response is for a final synthesizer agent, not the user, so be direct and prioritize accuracy over conversational style.".

Definition SYNTHESIZER_SYSTEM_INSTRUCTION : jsstring :=
  lit "You are a master synthesizer AI. Your PRIMARY GOAL is to write the final, complete response to the user's query. You will be given the user's query, an execution plan, and four refined responses from other AI agents. Your task is to analyze these responses" ++ emdash ++
  lit "identifying their strengths to incorporate and their flaws to discard" ++ emdash ++
  lit "while ensuring the final output aligns with the initial plan. Use this analysis to construct the single best possible answer for the user. Do not just critique the other agents; your output should BE the final, polished response.".

(** [!s] for a string. *)
Definition is_empty (s : jsstring) : bool :=
  match s with
  | [] => true
  | _ => false
  end.

(** [for (let i = start; ...; i++)] with [count] iterations left; [acc] is
    the array the body pushes to. *)
Fixpoint for_loop {T : Type} (count i : nat) (acc : T)
    (body : nat -> T -> prog T) : prog T :=
  match count with
  | 0 => Ret acc
  | S count' => Bind (body i acc) (fun acc' => for_loop count' (S i) acc' body)
  end.

(** [l.filter((_, j) => keep(j))], the indices counted from [j]. *)
Fixpoint filter_index {A : Type} (keep : nat -> bool) (j : nat) (l : list A) : list A :=
  match l with
  | [] => []
  | x :: rest =>
      if keep j then x :: filter_index keep (S j) rest
      else filter_index keep (S j) rest
  end.

(** [l[i]] *)
Definition at_index (l : list jsval) (i : nat) : jsval := nth i l VUndefined.

(** [l.slice(0, -1)] *)
Definition slice_0_m1 {A : Type} (l : list A) : list A := removelast l.

(** The template literals of [handleSubmit]; the values are converted from
    left to right. *)
Definition userQueryWithPlan (userInput : jsstring) (plan : jsval)
    : conversion jsstring :=
  (planText <~ convert plan ;;
   Converted (lit "User Query: " ++ dq ++ userInput ++ dq ++ nl ++ nl ++
              lit "Execution Plan:" ++ nl ++ planText))%conversion.

Definition refinementContext (initialAnswers : list jsval) (i : nat)
    : conversion jsstring :=
  let initialAnswer := at_index initialAnswers i in
  let otherAnswers := filter_index (fun j => negb (j =? i)) 0 initialAnswers in
  (mine <~ convert initialAnswer ;;
   other1 <~ convert (at_index otherAnswers 0) ;;
   other2 <~ convert (at_index otherAnswers 1) ;;
   other3 <~ convert (at_index otherAnswers 2) ;;
   Converted
     (lit "My initial response was: " ++ dq ++ mine ++ dq ++
      lit ". The other agents responded with: 1. " ++
      dq ++ other1 ++ dq ++ lit " 2. " ++
      dq ++ other2 ++ dq ++ lit " 3. " ++
      dq ++ other3 ++ dq ++
      lit ". Based on this context, critically re-evaluate and provide a new, improved response."))%conversion.

Definition synthesizerContext (refinedAnswers : list jsval) : conversion jsstring :=
  (refined1 <~ convert (at_index refinedAnswers 0) ;;
   refined2 <~ convert (at_index refinedAnswers 1) ;;
   refined3 <~ convert (at_index refinedAnswers 2) ;;
   refined4 <~ convert (at_index refinedAnswers 3) ;;
   Converted
     (lit "Here are the four refined responses to the user's query. Your task is to synthesize them into the best single, final answer." ++
      nl ++ nl ++ lit "Refined Response 1:" ++ nl ++ dq ++ refined1 ++ dq ++
      nl ++ nl ++ lit "Refined Response 2:" ++ nl ++ dq ++ refined2 ++ dq ++
      nl ++ nl ++ lit "Refined Response 3:" ++ nl ++ dq ++ refined3 ++ dq ++
      nl ++ nl ++ lit "Refined Response 4:" ++ nl ++ dq ++ refined4 ++ dq))%conversion.

(** [`${userQueryWithPlan}\n\n---INTERNAL CONTEXT---\n${context}`] *)
Definition withInternalContext (queryWithPlan context : jsstring) : jsstring :=
  queryWithPlan ++ nl ++ nl ++ lit "---INTERNAL CONTEXT---" ++ nl ++ context.

Definition userTurn (t : jsstring) : Content :=
  {| role := user; parts := [ {| text := VStr t |} ] |}.

Definition strategizingStatus : jsstring :=
  lit "Strategizing: Formulating optimal approach...".
Definition initializingStatus (i : nat) : jsstring :=
  lit "Initializing agent " ++ nat_to_jsstring (i + 1) ++
  lit "/4: Generating analysis...".
Definition refiningStatus (i : nat) : jsstring :=
  lit "Refining answer " ++ nat_to_jsstring (i + 1) ++
  lit "/4: Critiquing and improving...".
Definition synthesizingStatus : jsstring :=
  lit "Synthesizing: Compiling final response...".

(** [error instanceof Error ? error.message : '...'] of the catch block. *)
Definition errorMessage (error : thrown) : jsstring :=
  match error with
  | ErrorObject message => message
  | NonError _ =>
      lit "Sorry, I encountered an error. Please check your API keys and try again."
  end.

Section Render.
(** The text of the TypeError the engine raises for reading property
    [key] of [base]; it differs from engine to engine. *)
Variable typeErrorMessage : jsval -> jsstring -> jsstring.

(** The text of the TypeError the engine raises for a value that cannot
    be converted to a string. *)
Variable conversionErrorMessage : jsval -> jsstring.

(** A render of [App] creates its closures over the values the state
    hooks hold at that moment: [messages] and [apiSettings]. *)
Variable captured_messages : list Message.
Variable captured_settings : Settings.t.

Definition readProp (base : jsval) (key : jsstring) : prog jsval :=
  match getProp base key with
  | Some v => Ret v
  | None => Throw (ErrorObject (typeErrorMessage base key))
  end.

Definition readIndex0 (base : jsval) : prog jsval :=
  match getIndex0 base with
  | Some v => Ret v
  | None => Throw (ErrorObject (typeErrorMessage base (lit "0")))
  end.

(** A string built out of values, or the TypeError of the first value
    that cannot be converted. *)
Definition orThrow {A : Type} (c : conversion A) : prog A :=
  match c with
  | Converted a => Ret a
  | CannotConvert v => Throw (ErrorObject (conversionErrorMessage v))
  end.

(** The record pushed for one turn:
    [{ role: content.role, content: content.parts.map(p => p.text).join('\n') }] *)
Definition chatMessage (content : Content) : conversion ChatMessage :=
  (joined <~ join nl (map text (parts content)) ;;
   Converted {| cm_role := role_name (role content); cm_content := joined |})%conversion.

(** The records of [contents.forEach], from the first turn to the last. *)
Fixpoint chatMessages (contents : list Content) : conversion (list ChatMessage) :=
  match contents with
  | [] => Converted []
  | content :: rest =>
      (m <~ chatMessage content ;;
       ms <~ chatMessages rest ;;
       Converted (m :: ms))%conversion
  end.

(** [messagesForApi] *)
Definition messagesForApi (contents : list Content) (systemInstruction : jsstring)
    : conversion (list ChatMessage) :=
  (ms <~ chatMessages contents ;;
   Converted
     ((if is_empty systemInstruction then []
       else [ {| cm_role := lit "system"; cm_content := systemInstruction |} ]) ++
      ms))%conversion.

Definition callGenerativeAI (contents : list Content) (systemInstruction : jsstring)
    : prog jsval :=
  Call contents systemInstruction
    (let provider := Settings.provider captured_settings in
     let model := Settings.model captured_settings in
     let keys := Settings.keys captured_settings in
     match provider with
     | google =>
         let apiKey := Keys.google keys in
         if is_empty apiKey
         then Throw (ErrorObject (lit "Google API key is missing."))
         else
           response <-
             Await (GenerateContent apiKey
                      {| gc_model := if is_empty model then DEFAULT_MODEL_NAME
                                     else model;
                         gc_contents := contents;
                         gc_systemInstruction := systemInstruction |}) ;;
           Ret (response_text response)
     | _ =>
         let '(apiUrl, apiKey) :=
           match provider with
           | groq =>
               (lit "https://api.groq.com/openai/v1/chat/completions",
                Keys.groq keys)
           | _ =>
               (lit "https://openrouter.ai/api/v1/chat/completions",
                Keys.openrouter keys)
           end in
         if is_empty apiKey
         then Throw (ErrorObject (provider_name provider ++
                                  lit " API key is missing."))
         else
           messages <- orThrow (messagesForApi contents systemInstruction) ;;
           response <-
             Await (Fetch apiUrl
                      {| method := lit "POST";
                         headers :=
                           [ (lit "Authorization", lit "Bearer " ++ apiKey);
                             (lit "Content-Type", lit "application/json") ] ++
                           match provider with
                           | openrouter =>
                               [ (lit "HTTP-Referer",
                                  lit "https://github.com/your-repo/smadr");
                                 (lit "X-Title",
                                  lit "(SMADR) Strategic Multi-Agent Deep Research") ]
                           | _ => []
                           end;
                         body := {| body_model := model;
                                    body_messages := messages |}
                      |}) ;;
           if negb (ok response)
           then
             errorData <- Await (ResponseJson response) ;;
             error <- readProp errorData (lit "error") ;;
             detail <- orThrow (convert (js_or (getPropOpt error (lit "message"))
                                               (VStr (lit "Unknown error")))) ;;
             Throw (ErrorObject
                      (lit "API Error from " ++ provider_name provider ++
                       lit ": " ++ detail))
           else
             data <- Await (ResponseJson response) ;;
             choices <- readProp data (lit "choices") ;;
             choice <- readIndex0 choices ;;
             message <- readProp choice (lit "message") ;;
             readProp message (lit "content")
     end)%prog.

(** STEP 1 of [handleSubmit]: the loop that fills [initialAnswers]. *)
Definition initialResponses (mainChatHistory : list Content)
    (plannedUserTurn : Content) : prog (list jsval) :=
  for_loop 4 0 []
    (fun i initialAnswers =>
       SetLoadingStatus (initializingStatus i) ;;
       response <- callGenerativeAI (mainChatHistory ++ [plannedUserTurn])
                     INITIAL_SYSTEM_INSTRUCTION ;;
       Ret (initialAnswers ++ [response]))%prog.

(** STEP 2 of [handleSubmit]: the loop that fills [refinedAnswers]. *)
Definition refinedResponses (mainChatHistory : list Content)
    (queryWithPlan : jsstring) (initialAnswers : list jsval)
    : prog (list jsval) :=
  for_loop 4 0 []
    (fun i refinedAnswers =>
       SetLoadingStatus (refiningStatus i) ;;
       context <- orThrow (refinementContext initialAnswers i) ;;
       let refinementTurn :=
         userTurn (withInternalContext queryWithPlan context) in
       response <- callGenerativeAI (mainChatHistory ++ [refinementTurn])
                     REFINEMENT_SYSTEM_INSTRUCTION ;;
       Ret (refinedAnswers ++ [response]))%prog.

(** The [try] block of [handleSubmit]. *)
Definition tryBlock (userInput : jsstring) (currentMessages : list Message)
    : prog unit :=
  (let mainChatHistory :=
     map (fun msg => {| role := role msg; parts := parts msg |})
         (slice_0_m1 currentMessages) in
   let currentUserTurn := userTurn userInput in
   SetLoadingStatus strategizingStatus ;;
   plan <- callGenerativeAI (mainChatHistory ++ [currentUserTurn])
             STRATEGIST_SYSTEM_INSTRUCTION ;;
   queryWithPlan <- orThrow (userQueryWithPlan userInput plan) ;;
   let plannedUserTurn := userTurn queryWithPlan in
   initialAnswers <- initialResponses mainChatHistory plannedUserTurn ;;
   refinedAnswers <- refinedResponses mainChatHistory queryWithPlan
                       initialAnswers ;;
   SetLoadingStatus synthesizingStatus ;;
   context <- orThrow (synthesizerContext refinedAnswers) ;;
   let synthesizerTurn :=
     userTurn (withInternalContext queryWithPlan context) in
   finalResponseText <- callGenerativeAI (mainChatHistory ++ [synthesizerTurn])
                          SYNTHESIZER_SYSTEM_INSTRUCTION ;;
   SetIsLoading false ;;
   let finalMessage := {| role := model; parts := [ {| text := finalResponseText |} ] |} in
   SetMessages (fun prev => prev ++ [finalMessage]))%prog.

(** The [catch] block of [handleSubmit]. *)
Definition catchBlock (error : thrown) : prog unit :=
  (ConsoleError error ;;
   SetIsLoading false ;;
   SetMessages (fun prev =>
     prev ++ [ {| role := model;
                  parts := [ {| text := VStr (errorMessage error) |} ] |} ]))%prog.

Definition handleSubmit (userInput : jsstring) : prog unit :=
  (FormReset ;;
   if is_empty (trim userInput) then Ret tt
   else
     let userMessage := {| role := user; parts := [ {| text := VStr userInput |} ] |} in
     let currentMessages := captured_messages ++ [userMessage] in
     SetMessages (fun _ => currentMessages) ;;
     SetIsLoading true ;;
     TryCatch (tryBlock userInput currentMessages) catchBlock)%prog.
End Render.

(** Submitting the form runs the [handleSubmit] of the latest render, whose
    closures hold the state of that moment. *)
Definition submit (typeErrorMessage : jsval -> jsstring -> jsstring)
    (conversionErrorMessage : jsval -> jsstring)
    (net : Network) (env : Schedule) (userInput : jsstring) (w : World)
    : outcome unit * World :=
  run net env
    (handleSubmit typeErrorMessage conversionErrorMessage (messages (ui w))
       (apiSettings (cfg w)) userInput) w.

(** ** Observations of a run *)

(** The adapter activations and the network requests between two worlds
    of one run. *)
Definition issued (w w' : World) : list call_record :=
  skipn (length (calls w)) (calls w').

Definition sent (w w' : World) : list request :=
  skipn (length (netlog w)) (netlog w').

Definition mk_call (contents : list Content) (systemInstruction : jsstring)
    (r : outcome jsval) : call_record :=
  {| call_contents := contents; call_systemInstruction := systemInstruction;
     call_result := r |}.

Definition succeeded (c : call_record) : bool :=
  match call_result c with
  | Fulfilled _ => true
  | Rejected _ => false
  end.

(** A call whose result, if it has one, can stand in a template literal:
    a string, or a value that [ToString] converts. *)
Definition interpolable (c : call_record) : bool :=
  match call_result c with
  | Fulfilled v => match ToString v with Some _ => true | None => false end
  | Rejected _ => true
  end.

(** A conversation whose texts [join] can render: strings and the like. *)
Definition joinable (contents : list Content) : bool :=
  forallb (fun content =>
             forallb (fun p => match join_item (text p) with
                               | Converted _ => true
                               | CannotConvert _ => false
                               end)
                     (parts content))
          contents.

(** What [join] puts for an item, and the record pushed for a turn, when
    the texts of the turn can be joined. *)
Definition joined_text (v : jsval) : jsstring :=
  match join_item v with
  | Converted t => t
  | CannotConvert _ => []
  end.

Definition wire (turn : Content) : ChatMessage :=
  {| cm_role := role_name (role turn);
     cm_content := join_strings nl (map (fun p => joined_text (text p)) (parts turn)) |}.

(** The world in which a request ends. *)
Definition request_end (tem : jsval -> jsstring -> jsstring)
    (cem : jsval -> jsstring) (net : Network)
    (env : Schedule) (msgs : list Message) (s : Settings.t) (q : jsstring)
    (w : World) : World :=
  snd (run net env (handleSubmit tem cem msgs s q) w).


(** Two worlds that differ at most in the settings. *)
Definition same_run (w1 w2 : World) : Prop :=
  ui w1 = ui w2 /\ inputField w1 = inputField w2 /\ console w1 = console w2 /\
  netlog w1 = netlog w2 /\ calls w1 = calls w2 /\ tick w1 = tick w2.

(** The credential of the selected provider. *)
Definition credential (s : Settings.t) : jsstring :=
  match Settings.provider s with
  | google => Keys.google (Settings.keys s)
  | groq => Keys.groq (Settings.keys s)
  | openrouter => Keys.openrouter (Settings.keys s)
  end.

(** The message of the failure on an empty credential. *)
Definition missingKeyMessage (p : ApiProvider) : jsstring :=
  match p with
  | google => lit "Google API key is missing."
  | _ => provider_name p ++ lit " API key is missing."
  end.

(** Whether a call on [contents] reaches the network: it needs a
    credential, and on the OpenAI-compatible path texts that can be joined. *)
Definition sends (s : Settings.t) (contents : list Content) : bool :=
  negb (is_empty (credential s)) &&
  match Settings.provider s with
  | google => true
  | _ => joinable contents
  end.

(** A provider is deterministic when its answer depends on the request
    alone, not on the requests sent before it. *)
Definition deterministic (net : Network) : Prop :=
  (forall h1 h2 url init, fetch_outcome net h1 url init = fetch_outcome net h2 url init) /\
  (forall h1 h2 key params,
      generate_outcome net h1 key params = generate_outcome net h2 key params).

(** The progress label shown while the call number [k] of a request
    (counted from 0) is pending. *)
Definition status_of (k : nat) : jsstring :=
  match k with
  | 0 => strategizingStatus
  | 1 | 2 | 3 | 4 => initializingStatus (k - 1)
  | 5 | 6 | 7 | 8 => refiningStatus (k - 5)
  | _ => synthesizingStatus
  end.

(** The arguments of the next adapter call of a request, from the
    conversation [hist], the query [q] and the results [done] of the calls
    made so far: the plan, then the initial answers, then the refined ones;
    or the result that the prompt of that call cannot hold. *)
Definition stage_input (hist : list Content) (q : jsstring) (done : list jsval)
    : conversion (list Content * jsstring) :=
  match done with
  | [] => Converted (hist ++ [userTurn q], STRATEGIST_SYSTEM_INSTRUCTION)
  | plan :: rest =>
      (qp <~ userQueryWithPlan q plan ;;
       if length rest <? 4 then
         Converted (hist ++ [userTurn qp], INITIAL_SYSTEM_INSTRUCTION)
       else if length rest <? 8 then
         context <~ refinementContext (firstn 4 rest) (length rest - 4) ;;
         Converted (hist ++ [userTurn (withInternalContext qp context)],
                    REFINEMENT_SYSTEM_INSTRUCTION)
       else
         context <~ synthesizerContext (skipn 4 rest) ;;
         Converted (hist ++ [userTurn (withInternalContext qp context)],
                    SYNTHESIZER_SYSTEM_INSTRUCTION))%conversion
  end.

(** The records of the calls whose outcomes are [rs], in order; the trace
    stops at a call that fails, and before a call whose prompt cannot be
    built. *)
Fixpoint expected_calls (hist : list Content) (q : jsstring) (done : list jsval)
    (rs : list (outcome jsval)) : list call_record :=
  match rs with
  | [] => []
  | r :: rs' =>
      match stage_input hist q done with
      | CannotConvert _ => []
      | Converted input =>
          mk_call (fst input) (snd input) r ::
          match r with
          | Fulfilled v => expected_calls hist q (done ++ [v]) rs'
          | Rejected _ => []
          end
      end
  end.

(** How a request ends: with the answer of the synthesizer, on the failure
    of a call, or on a result that the next prompt cannot hold. *)
Inductive ending : Type :=
| Answered (finalResponseText : jsval)
| CallFailed (e : thrown)
| PromptFailed (v : jsval).

(** The outcome of the last call, when the request ends on a call. *)
Definition ending_results (e : ending) : list (outcome jsval) :=
  match e with
  | Answered v => [Fulfilled v]
  | CallFailed e => [Rejected e]
  | PromptFailed _ => []
  end.

(** The outcome of the [try] block. *)
Definition ending_outcome (cem : jsval -> jsstring) (e : ending) : outcome jsval :=
  match e with
  | Answered v => Fulfilled v
  | CallFailed e => Rejected e
  | PromptFailed v => Rejected (ErrorObject (cem v))
  end.

(** What the [catch] block is given. *)
Definition ending_errors (cem : jsval -> jsstring) (e : ending) : list thrown :=
  match ending_outcome cem e with
  | Fulfilled _ => []
  | Rejected e => [e]
  end.

(** The progress label a request ends under, after [n] calls that
    returned: the plan is interpolated before the label of the first
    initializer is set, the answers after the label of their stage. *)
Definition ending_status (n : nat) (e : ending) : jsstring :=
  match e with
  | PromptFailed _ => if n =? 1 then status_of 0 else status_of n
  | _ => status_of n
  end.

(** The message that closes a request: the answer of the last call, or the
    text of the error that ended it. *)
Definition closing (last : outcome jsval) : Message :=
  {| role := model;
     parts := [ {| text := match last with
                           | Fulfilled v => v
                           | Rejected e => VStr (errorMessage e)
                           end |} ] |}.

(** A record whose outcome is what the adapter gives on its arguments. *)
Definition genuine (tem : jsval -> jsstring -> jsstring) (cem : jsval -> jsstring)
    (net : Network) (env : Schedule) (s : Settings.t) (c : call_record) : Prop :=
  exists w0,
    fst (run net env
           (callGenerativeAI tem cem s (call_contents c) (call_systemInstruction c)) w0)
    = call_result c.

(** A request made with the settings [s]: to the selected provider, with
    its key and the model. *)
Definition from_settings (s : Settings.t) (r : request) : Prop :=
  match r with
  | ReqGenerate apiKey params =>
      Settings.provider s = google /\
      apiKey = Keys.google (Settings.keys s) /\
      gc_model params = (if is_empty (Settings.model s) then DEFAULT_MODEL_NAME
                         else Settings.model s)
  | ReqFetch url init =>
      url = match Settings.provider s with
            | google => []
            | groq => lit "https://api.groq.com/openai/v1/chat/completions"
            | openrouter => lit "https://openrouter.ai/api/v1/chat/completions"
            end /\
      Settings.provider s <> google /\
      method init = lit "POST" /\
      In (lit "Authorization", lit "Bearer " ++ credential s) (headers init) /\
      body_model (body init) = Settings.model s
  end.

(** The state of a request in flight after the calls [recs], under the
    progress label [st]. *)
Definition in_flight (tem : jsval -> jsstring -> jsstring) (cem : jsval -> jsstring)
    (net : Network) (env : Schedule) (msgs : list Message) (s : Settings.t)
    (q : jsstring) (w : World) (recs : list call_record) (st : jsstring)
    (W : World) : Prop :=
  ui W = {| messages := msgs ++ [userTurn q]; isLoading := true;
            loadingStatus := st |} /\
  inputField W = [] /\
  console W = console w /\
  calls W = calls w ++ recs /\
  Forall (genuine tem cem net env s) recs /\
  exists reqs,
    netlog W = netlog w ++ reqs /\
    Forall (from_settings s) reqs /\
    length reqs = if sends s msgs then length recs else 0.

(** ** Sample inputs *)

Module Sample.
Definition tem (base : jsval) (key : jsstring) : jsstring :=
  lit "Cannot read properties of " ++
  match base with VNull => lit "null" | _ => lit "undefined" end ++
  lit " (reading '" ++ key ++ lit "')".

Definition cem (v : jsval) : jsstring :=
  lit "Cannot convert object to primitive value".

(** The body of a chat completion whose content is [t]. *)
Definition completion (t : jsstring) : jsval :=
  VObj [ (lit "choices",
          VArr [ VObj [ (lit "message",
                         VObj [ (lit "role", VStr (lit "assistant"));
                                (lit "content", VStr t) ]) ] ]) ].

(** A provider that answers its request number [k] with [answers[k]]. *)
Definition scripted (answers : list jsstring) : Network :=
  {| fetch_outcome := fun h _ _ =>
       Fulfilled {| status := 200;
                    json := Fulfilled (completion (nth (length h) answers [])) |};
     generate_outcome := fun h _ _ =>
       Fulfilled {| response_text := VStr (nth (length h) answers []) |} |}.

Definition answers : list jsstring :=
  map lit ["plan"; "init0"; "init1"; "init2"; "init3";
           "ref0"; "ref1"; "ref2"; "ref3"; "final"]%string.

(** A provider that gives every request the same answer. *)
Definition constant (t : jsstring) : Network :=
  {| fetch_outcome := fun _ _ _ =>
       Fulfilled {| status := 200; json := Fulfilled (completion t) |};
     generate_outcome := fun _ _ _ =>
       Fulfilled {| response_text := VStr t |} |}.

(** A gateway that answers 502 with a page of HTML. *)
Definition bad_gateway : Network :=
  {| fetch_outcome := fun _ _ _ =>
       Fulfilled {| status := 502;
                    json := Rejected (ErrorObject
                              (lit "Unexpected token '<', is not valid JSON")) |};
     generate_outcome := fun _ _ _ =>
       Rejected (ErrorObject (lit "Bad Gateway")) |}.

(** A server that answers 500 with the JSON body [body]. *)
Definition server_error (body : jsval) : Network :=
  {| fetch_outcome := fun _ _ _ =>
       Fulfilled {| status := 500; json := Fulfilled body |};
     generate_outcome := fun _ _ _ =>
       Rejected (ErrorObject (lit "Internal Server Error")) |}.

(** A record that is in no trace. *)
Definition no_call : call_record :=
  mk_call [] [] (Rejected (NonError VUndefined)).

(** The settings dialog saved three times while the request waited. *)
Definition busy_user (without_key other : Settings.t) : Schedule :=
  fun n => match n with
           | 1 => [SaveSettings without_key]
           | 4 => [SaveSettings other; SaveSettings without_key]
           | _ => []
           end.

(** A provider whose request number 2 fails with 429 and a message. *)
Definition rate_limited : Network :=
  {| fetch_outcome := fun h _ _ =>
       if length h =? 2 then
         Fulfilled {| status := 429;
                      json := Fulfilled
                        (VObj [ (lit "error",
                                 VObj [ (lit "message",
                                         VStr (lit "Rate limit reached")) ]) ]) |}
       else Fulfilled {| status := 200; json := Fulfilled (completion (lit "ok")) |};
     generate_outcome := fun _ _ _ =>
       Fulfilled {| response_text := VStr (lit "ok") |} |}.

Definition with_google : Settings.t :=
  {| Settings.provider := google; Settings.model := [];
     Settings.keys := {| Keys.google := lit "AIza-key"; Keys.groq := [];
                         Keys.openrouter := [] |} |}.

Definition with_groq : Settings.t :=
  {| Settings.provider := groq; Settings.model := lit "llama3-8b-8192";
     Settings.keys := {| Keys.google := lit "AIza-key"; Keys.groq := lit "gsk_key";
                         Keys.openrouter := [] |} |}.

(** Groq selected, with a key for Google only. *)
Definition groq_without_key : Settings.t :=
  {| Settings.provider := groq; Settings.model := lit "llama3-8b-8192";
     Settings.keys := {| Keys.google := lit "AIza-key"; Keys.groq := [];
                         Keys.openrouter := [] |} |}.

Definition start (s : Settings.t) : World :=
  {| ui := {| messages := []; isLoading := false; loadingStatus := [] |};
     inputField := []; console := [];
     cfg := {| apiSettings := s; localStorage := None |};
     netlog := []; calls := []; tick := 0 |}.

Definition earlier : list Message :=
  [ {| role := user; parts := [ {| text := VStr (lit "Hello") |} ] |};
    {| role := model; parts := [ {| text := VStr (lit "Hi there") |} ] |} ].
End Sample.

(** ** The rest of the interface *)

(** [s.startsWith(prefix)] *)
Fixpoint startsWith (s prefix : jsstring) : bool :=
  match prefix with
  | [] => true
  | p :: prefix' =>
      match s with
      | c :: s' => N.eqb c p && startsWith s' prefix'
      | [] => false
      end
  end.

(** The class names of [LoadingIndicator]. *)
Inductive LoadingClass : Type := strategizing | initial | refining | synthesizing.

Definition getLoadingClass (status : jsstring) : LoadingClass :=
  if startsWith status (lit "Strategizing") then strategizing
  else if startsWith status (lit "Initializing") then initial
  else if startsWith status (lit "Refining") then refining
  else synthesizing.

Definition barCount (status : jsstring) : nat :=
  if startsWith status (lit "Strategizing") || startsWith status (lit "Synthesizing")
  then 1 else 4.

(** [msg.parts[0].text] of the message list; [None] for the TypeError on a
    message without parts. *)
Definition firstPartText (msg : Message) : option jsval :=
  match parts msg with
  | p :: _ => Some (text p)
  | [] => None
  end.

(** The condition under which the row [index] of the message list gets a
    [DownloadButton]: [msg.role === 'model' && index === messages.length - 1
    && !isLoading].  On indices, [index === length - 1] is
    [index + 1 === length]. *)
Definition showsDownload (u : UiState) (index : nat) (msg : Message) : bool :=
  match role msg with model => true | user => false end &&
  (index + 1 =? length (messages u)) &&
  negb (isLoading u).

(** [msg.role === 'model'], the condition of the agent label. *)
Definition showsAgentLabel (msg : Message) : bool :=
  match role msg with model => true | user => false end.

(** The errors of the calls that failed. *)
Definition failures (recs : list call_record) : list thrown :=
  flat_map (fun c => match call_result c with
                     | Rejected e => [e]
                     | Fulfilled _ => []
                     end) recs.

(** *** The settings *)

(** The initializer of the settings hook.  [env_google], [env_groq] and
    [env_openrouter] are the keys of the environment, the empty string when
    there is none; [saved] is the item of the store.  The spread of a
    saved object over the defaults keeps the fields of the saved object,
    and an object saved by [handleSaveSettings] has them all. *)
Definition initialApiSettings (env_google env_groq env_openrouter : jsstring)
    (saved : option Settings.t) : Settings.t :=
  let defaults :=
    {| Settings.provider := google;
       Settings.model := DEFAULT_MODEL_NAME;
       Settings.keys := {| Keys.google := env_google; Keys.groq := env_groq;
                           Keys.openrouter := env_openrouter |} |} in
  match saved with
  | Some s => s
  | None => defaults
  end.

(** [SettingsModal] and the flag that shows it. *)
Record Dialog : Type := {
  isSettingsOpen : bool;
  localSettings : Settings.t
}.

(** What the user does with the dialog: the gear button, the five fields,
    Save, and Cancel (or a click on the overlay). *)
Inductive DialogEvent : Type :=
| ClickSettings
| SelectProvider (p : ApiProvider)
| TypeModel (v : jsstring)
| TypeGoogleKey (v : jsstring)
| TypeGroqKey (v : jsstring)
| TypeOpenrouterKey (v : jsstring)
| ClickSave
| ClickCancel.

(** The [onChange] handlers: each one copies [localSettings] with one
    field replaced. *)
Definition edit (ev : DialogEvent) (l : Settings.t) : Settings.t :=
  match ev with
  | SelectProvider p =>
      {| Settings.provider := p; Settings.model := Settings.model l;
         Settings.keys := Settings.keys l |}
  | TypeModel v =>
      {| Settings.provider := Settings.provider l; Settings.model := v;
         Settings.keys := Settings.keys l |}
  | TypeGoogleKey v =>
      {| Settings.provider := Settings.provider l; Settings.model := Settings.model l;
         Settings.keys := {| Keys.google := v;
                             Keys.groq := Keys.groq (Settings.keys l);
                             Keys.openrouter := Keys.openrouter (Settings.keys l) |} |}
  | TypeGroqKey v =>
      {| Settings.provider := Settings.provider l; Settings.model := Settings.model l;
         Settings.keys := {| Keys.google := Keys.google (Settings.keys l);
                             Keys.groq := v;
                             Keys.openrouter := Keys.openrouter (Settings.keys l) |} |}
  | TypeOpenrouterKey v =>
      {| Settings.provider := Settings.provider l; Settings.model := Settings.model l;
         Settings.keys := {| Keys.google := Keys.google (Settings.keys l);
                             Keys.groq := Keys.groq (Settings.keys l);
                             Keys.openrouter := v |} |}
  | _ => l
  end.

Definition is_edit (ev : DialogEvent) : bool :=
  match ev with
  | ClickSettings | ClickSave | ClickCancel => false
  | _ => true
  end.

(** One event on the dialog and the settings.  A closed dialog renders
    nothing, so only the gear button acts on it.  The effect of the dialog
    copies the settings into [localSettings] whenever the settings or the
    flag change: on opening, and on closing by Save or Cancel.
    [handleSave] is [onSave(localSettings); onClose()]. *)
Definition dialog_step (st : Dialog * Config) (ev : DialogEvent) : Dialog * Config :=
  let (d, c) := st in
  if isSettingsOpen d then
    match ev with
    | ClickSettings => (d, c)
    | ClickSave =>
        let c' := handleSaveSettings (localSettings d) c in
        ({| isSettingsOpen := false; localSettings := apiSettings c' |}, c')
    | ClickCancel =>
        ({| isSettingsOpen := false; localSettings := apiSettings c |}, c)
    | _ =>
        ({| isSettingsOpen := true; localSettings := edit ev (localSettings d) |}, c)
    end
  else
    match ev with
    | ClickSettings =>
        ({| isSettingsOpen := true; localSettings := apiSettings c |}, c)
    | _ => (d, c)
    end.

(** ** More sample inputs *)

Module Demo.
Definition with_openrouter : Settings.t :=
  {| Settings.provider := openrouter; Settings.model := lit "openai/gpt-4o";
     Settings.keys := {| Keys.google := []; Keys.groq := [];
                         Keys.openrouter := lit "sk-or-key" |} |}.

(** A provider that answers 200 with the JSON body [body]. *)
Definition answering (body : jsval) : Network :=
  {| fetch_outcome := fun _ _ _ =>
       Fulfilled {| status := 200; json := Fulfilled body |};
     generate_outcome := fun _ _ _ =>
       Fulfilled {| response_text := VUndefined |} |}.

(** No network: every request is rejected. *)
Definition offline : Network :=
  {| fetch_outcome := fun _ _ _ => Rejected (ErrorObject (lit "Failed to fetch"));
     generate_outcome := fun _ _ _ => Rejected (ErrorObject (lit "Failed to fetch")) |}.

(** An answer that is an object with a key named toString. *)
Definition odd_answer : jsval := VObj [ (lit "toString", VNum (lit "1") false) ].

Definition odd_completion : jsval :=
  VObj [ (lit "choices",
          VArr [ VObj [ (lit "message", VObj [ (lit "content", odd_answer) ]) ] ]) ].

(** A conversation whose last answer was that object. *)
Definition odd_history : list Message :=
  [ {| role := user; parts := [ {| text := VStr (lit "Hello") |} ] |};
    {| role := model; parts := [ {| text := odd_answer |} ] |} ].

(** Bodies of responses. *)
Definition no_choices : jsval := VObj [ (lit "choices", VArr []) ].

Definition message_without_content : jsval :=
  VObj [ (lit "role", VStr (lit "assistant")) ].

Definition no_content : jsval :=
  VObj [ (lit "choices", VArr [ VObj [ (lit "message", message_without_content) ] ]) ].

Definition overloaded : list (jsstring * jsval) :=
  [ (lit "message", VStr (lit "The model is overloaded"));
    (lit "code", VNum (lit "503") false) ].

Definition error_body : list (jsstring * jsval) := [ (lit "error", VObj overloaded) ].

Definition detail_body : list (jsstring * jsval) :=
  [ (lit "detail", VStr (lit "quota exceeded")) ].

(** A query with white space around it. *)
Definition padded_query : jsstring := lit "  why?  ".

(** Edits of the dialog: groq is selected and given a model and a key. *)
Definition edits : list DialogEvent :=
  [ SelectProvider groq; TypeModel (lit "llama3-8b-8192"); TypeGroqKey (lit "gsk_key") ].

Definition closed_dialog (s : Settings.t) : Dialog :=
  {| isSettingsOpen := false; localSettings := s |}.

Definition stored (s : Settings.t) : Config :=
  {| apiSettings := s; localStorage := Some s |}.
End Demo.

(** * Properties *)

Arguments lit : simpl never.
Arguments userQueryWithPlan : simpl never.
Arguments refinementContext : simpl never.
Arguments synthesizerContext : simpl never.
Arguments withInternalContext : simpl never.
Arguments initializingStatus : simpl never.
Arguments refiningStatus : simpl never.
Arguments errorMessage : simpl never.
Arguments ToString : simpl never.
Arguments messagesForApi : simpl never.

(** Case analysis on an innermost scrutinee of the goal that is not a run
    of a program. *)
Ltac break_match :=
  match goal with
  | |- context [match ?x with _ => _ end] =>
      lazymatch x with
      | context [run] => fail
      | context [match _ with _ => _ end] => fail
      | _ => destruct x eqn:?
      end
  end.

(** ** Conversions to strings *)

Lemma chatMessage_joinable (content : Content) :
  match chatMessage content with
  | Converted m =>
      forallb (fun p => match join_item (text p) with
                        | Converted _ => true
                        | CannotConvert _ => false
                        end) (parts content) = true /\
      m = wire content
  | CannotConvert _ =>
      forallb (fun p => match join_item (text p) with
                        | Converted _ => true
                        | CannotConvert _ => false
                        end) (parts content) = false
  end.
Proof.
  unfold chatMessage, join, wire. destruct content as [r ps]. cbn [parts role].
  assert (H : match join_items (map text ps) with
              | Converted ss =>
                  forallb (fun p => match join_item (text p) with
                                    | Converted _ => true
                                    | CannotConvert _ => false
                                    end) ps = true /\
                  ss = map (fun p => joined_text (text p)) ps
              | CannotConvert _ =>
                  forallb (fun p => match join_item (text p) with
                                    | Converted _ => true
                                    | CannotConvert _ => false
                                    end) ps = false
              end).
  { induction ps as [|p ps IH]; cbn [map join_items forallb]; [now split|].
    unfold joined_text at 1.
    destruct (join_item (text p)) as [t|v]; cbn [and_then andb]; [|reflexivity].
    destruct (join_items (map text ps)) as [ss|v]; cbn [and_then]; [|exact IH].
    destruct IH as [IH ->]. now split. }
  destruct (join_items (map text ps)) as [ss|v]; cbn [and_then]; [|exact H].
  destruct H as [H ->]. now split.
Qed.

Lemma chatMessages_joinable (contents : list Content) :
  match chatMessages contents with
  | Converted ms => joinable contents = true /\ ms = map wire contents
  | CannotConvert _ => joinable contents = false
  end.
Proof.
  induction contents as [|c l IH]; cbn [chatMessages joinable forallb map];
    [now split|].
  pose proof (chatMessage_joinable c) as Hc.
  destruct (chatMessage c) as [m|v]; cbn [and_then].
  - destruct Hc as [-> ->]. cbn [andb]. fold (joinable l).
    destruct (chatMessages l) as [ms|v]; cbn [and_then]; [|exact IH].
    destruct IH as [-> ->]. now split.
  - now rewrite Hc.
Qed.

(** The messages of a request, when the texts of the conversation can be
    joined; no messages otherwise. *)
Lemma messagesForApi_joinable (contents : list Content) (sys : jsstring) :
  match messagesForApi contents sys with
  | Converted ms =>
      joinable contents = true /\
      ms = (if is_empty sys then []
            else [ {| cm_role := lit "system"; cm_content := sys |} ]) ++
           map wire contents
  | CannotConvert _ => joinable contents = false
  end.
Proof.
  unfold messagesForApi. pose proof (chatMessages_joinable contents) as H.
  destruct (chatMessages contents) as [ms|v]; cbn [and_then]; [|exact H].
  destruct H as [-> ->]. now split.
Qed.

Lemma joinable_app (l1 l2 : list Content) :
  joinable (l1 ++ l2) = joinable l1 && joinable l2.
Proof. unfold joinable. apply forallb_app. Qed.

(** The turn of the user is a string: whether a call can be sent depends on
    the conversation before it. *)
Lemma joinable_userTurn (msgs : list Content) (t : jsstring) :
  joinable (msgs ++ [userTurn t]) = joinable msgs.
Proof. rewrite joinable_app. cbn. apply andb_true_r. Qed.

Lemma sends_userTurn (s : Settings.t) (msgs : list Content) (t : jsstring) :
  sends s (msgs ++ [userTurn t]) = sends s msgs.
Proof. unfold sends. now rewrite joinable_userTurn. Qed.

(** ** The adapter *)

Ltac adapter_cases s :=
  unfold callGenerativeAI, readProp, readIndex0, credential, sent, orThrow in *;
  destruct s as [p m [kg kq ko]]; destruct p;
  cbn [run perform Settings.provider Settings.model Settings.keys
       Keys.google Keys.groq Keys.openrouter] in *.

Section AdapterFacts.
Variable tem : jsval -> jsstring -> jsstring.
Variable cem : jsval -> jsstring.
Variable net : Network.
Variable env : Schedule.
Variable s : Settings.t.

(** An activation of the adapter leaves the orchestrator's state alone
    and is recorded once, with its arguments and its outcome. *)
Lemma callGenerativeAI_frame contents sys w r w' :
  run net env (callGenerativeAI tem cem s contents sys) w = (r, w') ->
  ui w' = ui w /\ inputField w' = inputField w /\ console w' = console w /\
  calls w' = calls w ++ [mk_call contents sys r].
Proof.
  adapter_cases s;
    repeat (break_match; cbn [run perform]); try discriminate;
    intros E; inversion E; clear E; subst; cbn; auto.
Qed.

(** The requests of one activation: one when the call can be sent, made
    with the settings of the closure, none otherwise. *)
Lemma callGenerativeAI_requests contents sys w :
  exists l,
    netlog (snd (run net env (callGenerativeAI tem cem s contents sys) w)) =
      netlog w ++ l /\
    Forall (from_settings s) l /\
    length l = if sends s contents then 1 else 0.
Proof.
  pose proof (messagesForApi_joinable contents sys) as HJ.
  unfold sends.
  adapter_cases s;
    [ destruct (is_empty kg) eqn:Hk
    | destruct (is_empty kq) eqn:Hk;
      [|destruct (messagesForApi contents sys) as [ms|bad]; [destruct HJ as [HJ _]|]]
    | destruct (is_empty ko) eqn:Hk;
      [|destruct (messagesForApi contents sys) as [ms|bad]; [destruct HJ as [HJ _]|]] ];
    rewrite ?HJ;
    cbn [run perform negb andb];
    repeat (break_match; cbn [run perform]);
    cbn [snd with_call suspend with_request netlog negb andb];
    try (exists []; rewrite app_nil_r; split; [reflexivity|];
         split; [constructor | reflexivity]);
    (eexists; split; [reflexivity|]; split; [|reflexivity]);
    (constructor; [|constructor]);
    unfold from_settings, credential;
    cbn [Settings.provider Settings.model Settings.keys Keys.google Keys.groq
         Keys.openrouter method headers body body_model gc_model];
    repeat split; try discriminate; try (left; reflexivity);
    repeat match goal with
           | H : is_empty ?x = _ |- context [is_empty ?x] => rewrite H
           end;
    reflexivity.
Qed.
End AdapterFacts.

Lemma skipn_length_app {A : Type} (l l' : list A) :
  skipn (length l) (l ++ l') = l'.
Proof. induction l; simpl; auto. Qed.

Lemma skipn_length_self {A : Type} (l : list A) : skipn (length l) l = [].
Proof. induction l; simpl; auto. Qed.

Lemma issued_app w w' recs :
  calls w' = calls w ++ recs -> issued w w' = recs.
Proof. unfold issued. intros ->. apply skipn_length_app. Qed.

Lemma sent_app w w' reqs :
  netlog w' = netlog w ++ reqs -> sent w w' = reqs.
Proof. unfold sent. intros ->. apply skipn_length_app. Qed.

Lemma is_empty_false (x : jsstring) : x <> [] -> is_empty x = false.
Proof. destruct x; [congruence | reflexivity]. Qed.

(** [mainChatHistory] is the conversation the render saw. *)
Lemma mainChatHistory_eq (msgs : list Message) (m : Message) :
  map (fun msg => {| role := role msg; parts := parts msg |})
      (slice_0_m1 (msgs ++ [m])) = msgs.
Proof.
  unfold slice_0_m1. rewrite removelast_last.
  induction msgs as [|[r p] l IH]; simpl; [reflexivity|].
  now rewrite IH.
Qed.

Section PipelineFacts.
Variable tem : jsval -> jsstring -> jsstring.
Variable cem : jsval -> jsstring.
Variable net : Network.
Variable env : Schedule.
Variable msgs : list Message.
Variable s : Settings.t.

Lemma in_flight_status q w recs st st' W :
  in_flight tem cem net env msgs s q w recs st W ->
  in_flight tem cem net env msgs s q w recs st'
    (with_ui (fun u => {| messages := messages u; isLoading := isLoading u;
                          loadingStatus := st' |}) W).
Proof.
  intros (Hu & Hi & Hc & Hcalls & Hg & Hn). unfold in_flight. cbn.
  rewrite Hu. cbn. repeat (split; [first [assumption | reflexivity]|]). exact Hn.
Qed.

Lemma in_flight_call q w recs st W t sys r W' :
  in_flight tem cem net env msgs s q w recs st W ->
  run net env (callGenerativeAI tem cem s (msgs ++ [userTurn t]) sys) W = (r, W') ->
  in_flight tem cem net env msgs s q w
    (recs ++ [mk_call (msgs ++ [userTurn t]) sys r]) st W'.
Proof.
  intros (Hu & Hi & Hc & Hcalls & Hg & reqs & Hn & Hf & Hl) E.
  destruct (callGenerativeAI_frame _ _ _ _ _ _ _ _ _ _ E) as (Fu & Fi & Fc & Fcalls).
  destruct (callGenerativeAI_requests tem cem net env s (msgs ++ [userTurn t]) sys W)
    as (l & Hl1 & Hl2 & Hl3).
  rewrite E in Hl1. cbn [snd] in Hl1. rewrite sends_userTurn in Hl3.
  unfold in_flight. rewrite Fu, Fi, Fc, Fcalls, Hcalls, <- app_assoc.
  split; [assumption|]. split; [assumption|]. split; [assumption|].
  split; [reflexivity|]. split.
  - apply Forall_app. split; [exact Hg|].
    constructor; [|constructor].
    exists W. unfold mk_call.
    cbn [call_contents call_systemInstruction call_result]. now rewrite E.
  - exists (reqs ++ l). rewrite Hl1, Hn, <- app_assoc, !length_app, Hl, Hl3.
    split; [reflexivity|]. split; [now apply Forall_app|].
    destruct (sends s msgs); cbn; lia.
Qed.
End PipelineFacts.

(** One adapter call of a request in flight: case analysis on its outcome,
    with the invariant carried over to the world it leaves. *)
Ltac call H I v W' :=
  match type of H with
  | context [run ?n ?e (callGenerativeAI ?t ?c ?s ?cont ?sys) (with_ui ?f ?W)] =>
      let E := fresh "E" in
      destruct (run n e (callGenerativeAI t c s cont sys) (with_ui f W))
        as [[v|v] W'] eqn:E;
      (eapply in_flight_call in E; [|eapply in_flight_status; exact I]);
      clear I; rename E into I;
      cbn [run for_loop catchBlock orThrow app] in H
  end.

(** One template literal of a request in flight: its text, or the value
    that cannot be converted. *)
Ltac prompt H E x :=
  match type of H with
  | context [orThrow _ ?c] =>
      destruct c as [x|x] eqn:E;
      cbn [run for_loop catchBlock orThrow app] in H
  end.

Ltac rewrite_prompts :=
  repeat match goal with
         | H : _ = Converted _ |- _ => rewrite H
         | H : _ = CannotConvert _ |- _ => rewrite H
         end.

Ltac trace_norm :=
  repeat (progress
            (cbn [expected_calls stage_input and_then map app length Nat.ltb
                  Nat.leb firstn skipn Nat.sub fst snd ending_results];
             rewrite_prompts)).

(** The end of a request, after the calls that returned [oks]. *)
Ltac finish H I oks e :=
  inversion H; subst; clear H;
  destruct I as (Iu & Ii & Ic & Icalls & Ig & reqs & In1 & In2 & In3);
  exists oks, e;
  match goal with
  | |- context [issued ?w ?W] =>
      let Hiss := fresh "Hiss" in
      assert (Hiss : issued w W = _) by (apply issued_app; cbn; exact Icalls);
      rewrite !Hiss
  end;
  split; [trace_norm; reflexivity|];
  split; [reflexivity|];
  split; [cbn; lia|];
  split; [first [reflexivity | trace_norm; reflexivity | constructor]|];
  split; [cbn; rewrite Iu; cbn; rewrite <- app_assoc; reflexivity|];
  split; [cbn; exact Ii|];
  split; [exact Ig|];
  split; [reflexivity|];
  split; [cbn; rewrite Ic, ?app_nil_r; reflexivity|];
  exists reqs; split; [cbn; exact In1|]; split; [exact In2 | exact In3].

Section Orchestrator.
Variable tem : jsval -> jsstring -> jsstring.
Variable cem : jsval -> jsstring.
Variable net : Network.
Variable env : Schedule.
Variable msgs : list Message.
Variable s : Settings.t.

(** The shape of every run of [handleSubmit] on a query that is not
    blank: some calls return, in the order of the pipeline, and the request
    ends with the answer of the tenth, on the first call that fails, or on
    the first result that the next prompt cannot hold. *)
Lemma handleSubmit_trace q w r w' :
  is_empty (trim q) = false ->
  run net env (handleSubmit tem cem msgs s q) w = (r, w') ->
  exists (oks : list jsval) (e : ending),
    issued w w' = expected_calls msgs q [] (map Fulfilled oks ++ ending_results e) /\
    length (issued w w') = length oks + length (ending_results e) /\
    length oks <= 9 /\
    match e with
    | Answered _ => length oks = 9
    | CallFailed _ => True
    | PromptFailed v => stage_input msgs q oks = CannotConvert v
    end /\
    ui w' = {| messages := msgs ++ [userTurn q; closing (ending_outcome cem e)];
               isLoading := false;
               loadingStatus := ending_status (length oks) e |} /\
    inputField w' = [] /\
    Forall (genuine tem cem net env s) (issued w w') /\
    r = Fulfilled tt /\
    console w' = console w ++ ending_errors cem e /\
    exists reqs,
      netlog w' = netlog w ++ reqs /\
      Forall (from_settings s) reqs /\
      length reqs = if sends s msgs then length (issued w w') else 0.
Proof.
  intros Hq H. unfold handleSubmit in H. cbn [run] in H. rewrite Hq in H.
  cbn [run tryBlock initialResponses refinedResponses for_loop orThrow] in H.
  rewrite !mainChatHistory_eq in H.
  assert (I : in_flight tem cem net env msgs s q w [] (loadingStatus (ui w))
                (with_ui (fun u => {| messages := messages u; isLoading := true;
                                      loadingStatus := loadingStatus u |})
                   (with_ui (fun u => {| messages := msgs ++ [userTurn q];
                                         isLoading := isLoading u;
                                         loadingStatus := loadingStatus u |})
                      (with_inputField [] w)))).
  { unfold in_flight. cbn. rewrite !app_nil_r.
    repeat (split; [reflexivity|]). split; [constructor|].
    exists []. rewrite app_nil_r. split; [reflexivity|]. split; [constructor|].
    now destruct (sends s msgs). }
  call H I plan W1.
  2: { finish H I (@nil jsval) (CallFailed plan). }
  prompt H Hqp qp.
  2: { finish H I [plan] (PromptFailed qp). }
  call H I a0 W2.
  2: { finish H I [plan] (CallFailed a0). }
  call H I a1 W3.
  2: { finish H I [plan; a0] (CallFailed a1). }
  call H I a2 W4.
  2: { finish H I [plan; a0; a1] (CallFailed a2). }
  call H I a3 W5.
  2: { finish H I [plan; a0; a1; a2] (CallFailed a3). }
  prompt H Hc0 c0.
  2: { finish H I [plan; a0; a1; a2; a3] (PromptFailed c0). }
  call H I r0 W6.
  2: { finish H I [plan; a0; a1; a2; a3] (CallFailed r0). }
  prompt H Hc1 c1.
  2: { finish H I [plan; a0; a1; a2; a3; r0] (PromptFailed c1). }
  call H I r1 W7.
  2: { finish H I [plan; a0; a1; a2; a3; r0] (CallFailed r1). }
  prompt H Hc2 c2.
  2: { finish H I [plan; a0; a1; a2; a3; r0; r1] (PromptFailed c2). }
  call H I r2 W8.
  2: { finish H I [plan; a0; a1; a2; a3; r0; r1] (CallFailed r2). }
  prompt H Hc3 c3.
  2: { finish H I [plan; a0; a1; a2; a3; r0; r1; r2] (PromptFailed c3). }
  call H I r3 W9.
  2: { finish H I [plan; a0; a1; a2; a3; r0; r1; r2] (CallFailed r3). }
  prompt H Hsc sc.
  2: { finish H I [plan; a0; a1; a2; a3; r0; r1; r2; r3] (PromptFailed sc). }
  call H I fin W10.
  2: { finish H I [plan; a0; a1; a2; a3; r0; r1; r2; r3] (CallFailed fin). }
  finish H I [plan; a0; a1; a2; a3; r0; r1; r2; r3] (Answered fin).
Qed.
End Orchestrator.

(** ** Blank queries *)

Lemma trimStart_blank (q : jsstring) :
  forallb isWhiteSpace q = true -> trimStart q = [].
Proof.
  induction q as [|c q IH]; simpl; [reflexivity|].
  intros H. apply andb_prop in H as [Hc Hq]. rewrite Hc. auto.
Qed.

Lemma trim_blank (q : jsstring) :
  forallb isWhiteSpace q = true -> trim q = [].
Proof.
  intros H. unfold trim, trimEnd. now rewrite (trimStart_blank _ H).
Qed.

Lemma handleSubmit_blank tem cem net env msgs s q w :
  is_empty (trim q) = true ->
  run net env (handleSubmit tem cem msgs s q) w = (Fulfilled tt, with_inputField [] w).
Proof.
  intros H. unfold handleSubmit. cbn [run]. now rewrite H.
Qed.

Lemma blank_issues_nothing tem cem net env msgs s q w :
  is_empty (trim q) = true ->
  issued w (request_end tem cem net env msgs s q w) = [].
Proof.
  intros H. unfold request_end. rewrite handleSubmit_blank by assumption.
  unfold issued. cbn. apply skipn_length_self.
Qed.

(** ** The expected trace *)

(** The outcomes of the records of a trace are the first of the outcomes
    it was given. *)
Lemma expected_calls_prefix hist q rs : forall done,
  map call_result (expected_calls hist q done rs) =
  firstn (length (expected_calls hist q done rs)) rs.
Proof.
  induction rs as [|r rs IH]; intros done; [reflexivity|].
  cbn [expected_calls]. destruct (stage_input hist q done) as [input|v];
    [|reflexivity].
  cbn [map length firstn mk_call call_result]. f_equal.
  destruct r as [v|e]; [apply IH | reflexivity].
Qed.

(** A trace with a record for every outcome holds these outcomes. *)
Lemma expected_calls_results hist q rs done :
  length (expected_calls hist q done rs) = length rs ->
  map call_result (expected_calls hist q done rs) = rs.
Proof.
  intros H. rewrite expected_calls_prefix, H. apply firstn_all.
Qed.

(** The record number [k] of a trace: the calls before it returned, and
    its arguments are those of the stage their results lead to. *)
Lemma expected_calls_nth hist q rs : forall done k c,
  nth_error (expected_calls hist q done rs) k = Some c ->
  exists vs r input,
    firstn k rs = map Fulfilled vs /\ length vs = k /\
    nth_error rs k = Some r /\
    stage_input hist q (done ++ vs) = Converted input /\
    c = mk_call (fst input) (snd input) r.
Proof.
  induction rs as [|r rs IH]; intros done k c H.
  - destruct k; discriminate.
  - cbn [expected_calls] in H.
    destruct (stage_input hist q done) as [input|bad] eqn:Hin;
      [|destruct k; discriminate].
    destruct k as [|k]; cbn [nth_error] in H.
    + inversion H; subst. exists [], r, input. rewrite app_nil_r.
      repeat split. exact Hin.
    + destruct r as [v|e]; [|destruct k; discriminate].
      destruct (IH _ _ _ H) as (vs & r & input' & Hf & Hl & Hn & Hs & Hc).
      exists (v :: vs), r, input'. cbn [firstn map length nth_error].
      rewrite Hf, Hl, <- app_assoc in *. repeat split; assumption.
Qed.

(** The records of calls that returned. *)
Lemma expected_calls_succeeded hist q oks : forall done,
  forallb succeeded (expected_calls hist q done (map Fulfilled oks)) = true.
Proof.
  induction oks as [|v oks IH]; intros done; [reflexivity|].
  cbn [map expected_calls]. destruct (stage_input hist q done); [|reflexivity].
  cbn [forallb]. now rewrite IH.
Qed.

(** A trace with a record for every outcome, the last one set apart. *)
Lemma expected_calls_snoc hist q oks last : forall done,
  length (expected_calls hist q done (map Fulfilled oks ++ [last])) = S (length oks) ->
  exists input,
    stage_input hist q (done ++ oks) = Converted input /\
    expected_calls hist q done (map Fulfilled oks ++ [last]) =
    expected_calls hist q done (map Fulfilled oks) ++
    [mk_call (fst input) (snd input) last] /\
    length (expected_calls hist q done (map Fulfilled oks)) = length oks.
Proof.
  induction oks as [|v oks IH]; intros done; cbn [map app expected_calls].
  - rewrite app_nil_r. destruct (stage_input hist q done) as [input|bad];
      [|discriminate].
    intros _. exists input. split; [reflexivity|]. now destruct last.
  - destruct (stage_input hist q done) as [input|bad]; [|discriminate].
    cbn [length]. intros H. injection H as H.
    destruct (IH _ H) as (input' & Hs & He & Hl).
    exists input'. rewrite <- app_assoc in Hs. cbn [app] in Hs.
    rewrite He, Hl. repeat split. exact Hs.
Qed.

Lemma succeeded_results (l : list call_record) :
  forallb succeeded l =
  forallb (fun r => match r with Fulfilled _ => true | Rejected _ => false end)
          (map call_result l).
Proof. induction l as [|c l IH]; cbn; [reflexivity|]. now rewrite IH. Qed.

Lemma interpolable_results (l : list call_record) :
  forallb interpolable l =
  forallb (fun r => match r with
                    | Fulfilled v => match ToString v with
                                     | Some _ => true
                                     | None => false
                                     end
                    | Rejected _ => true
                    end)
          (map call_result l).
Proof. induction l as [|c l IH]; cbn; [reflexivity|]. now rewrite IH. Qed.

(** ** Prompts of results that can be interpolated *)

Lemma convert_some (v : jsval) :
  ToString v <> None -> exists t, convert v = Converted t.
Proof.
  unfold convert. destruct (ToString v) as [t|]; [eauto | congruence].
Qed.

Lemma at_index_some (l : list jsval) (i : nat) :
  Forall (fun v => ToString v <> None) l -> ToString (at_index l i) <> None.
Proof.
  unfold at_index. intros H. revert i.
  induction H as [|x l Hx Hl IH]; intros [|i]; cbn [nth]; auto; discriminate.
Qed.

Lemma filter_index_some (keep : nat -> bool) (l : list jsval) : forall j,
  Forall (fun v => ToString v <> None) l ->
  Forall (fun v => ToString v <> None) (filter_index keep j l).
Proof.
  induction l as [|x l IH]; intros j H; cbn [filter_index]; [constructor|].
  inversion H; subst. destruct (keep j); [constructor|]; auto.
Qed.

Lemma firstn_some (n : nat) (l : list jsval) :
  Forall (fun v => ToString v <> None) l ->
  Forall (fun v => ToString v <> None) (firstn n l).
Proof.
  intros H. revert n. induction H; intros [|n]; cbn [firstn]; constructor; auto.
Qed.

Lemma skipn_some (n : nat) (l : list jsval) :
  Forall (fun v => ToString v <> None) l ->
  Forall (fun v => ToString v <> None) (skipn n l).
Proof.
  intros H. revert n. induction H; intros [|n]; cbn [skipn]; auto.
Qed.

Lemma refinementContext_some (l : list jsval) (i : nat) :
  Forall (fun v => ToString v <> None) l ->
  exists t, refinementContext l i = Converted t.
Proof.
  intros H. unfold refinementContext.
  pose proof (filter_index_some (fun j => negb (j =? i)) l 0 H) as Ho.
  destruct (convert_some _ (at_index_some l i H)) as [t0 ->].
  destruct (convert_some _ (at_index_some _ 0 Ho)) as [t1 ->].
  destruct (convert_some _ (at_index_some _ 1 Ho)) as [t2 ->].
  destruct (convert_some _ (at_index_some _ 2 Ho)) as [t3 ->].
  cbn [and_then]. eauto.
Qed.

Lemma synthesizerContext_some (l : list jsval) :
  Forall (fun v => ToString v <> None) l ->
  exists t, synthesizerContext l = Converted t.
Proof.
  intros H. unfold synthesizerContext.
  destruct (convert_some _ (at_index_some l 0 H)) as [t0 ->].
  destruct (convert_some _ (at_index_some l 1 H)) as [t1 ->].
  destruct (convert_some _ (at_index_some l 2 H)) as [t2 ->].
  destruct (convert_some _ (at_index_some l 3 H)) as [t3 ->].
  cbn [and_then]. eauto.
Qed.

(** When the results so far can be interpolated, the prompt of the next
    call can be built. *)
Lemma stage_input_some hist q done :
  Forall (fun v => ToString v <> None) done ->
  exists input, stage_input hist q done = Converted input.
Proof.
  intros H. unfold stage_input. destruct done as [|plan rest]; [eauto|].
  inversion H as [|? ? Hp Hr]; subst.
  unfold userQueryWithPlan. destruct (convert_some _ Hp) as [tp ->].
  cbn [and_then].
  destruct (length rest <? 4); [eauto|].
  destruct (length rest <? 8).
  - destruct (refinementContext_some _ (length rest - 4) (firstn_some 4 _ Hr))
      as [t ->].
    cbn [and_then]. eauto.
  - destruct (synthesizerContext_some _ (skipn_some 4 _ Hr)) as [t ->].
    cbn [and_then]. eauto.
Qed.


Lemma synthesizerContext_texts r0 r1 r2 r3 context :
  synthesizerContext [r0; r1; r2; r3] = Converted context ->
  exists t0 t1 t2 t3,
    ToString r0 = Some t0 /\ ToString r1 = Some t1 /\
    ToString r2 = Some t2 /\ ToString r3 = Some t3 /\
    context =
      lit "Here are the four refined responses to the user's query. Your task is to synthesize them into the best single, final answer." ++
      nl ++ nl ++ lit "Refined Response 1:" ++ nl ++ dq ++ t0 ++ dq ++
      nl ++ nl ++ lit "Refined Response 2:" ++ nl ++ dq ++ t1 ++ dq ++
      nl ++ nl ++ lit "Refined Response 3:" ++ nl ++ dq ++ t2 ++ dq ++
      nl ++ nl ++ lit "Refined Response 4:" ++ nl ++ dq ++ t3 ++ dq.
Proof.
  unfold synthesizerContext, convert. cbn [at_index nth]. intros H.
  repeat match type of H with
         | context [ToString ?v] =>
             destruct (ToString v) eqn:?; cbn [and_then] in H; [|discriminate H]
         end.
  inversion H; subst; clear H.
  do 4 eexists. repeat (split; [reflexivity|]). reflexivity.
Qed.

Lemma userQueryWithPlan_text q plan qp :
  userQueryWithPlan q plan = Converted qp ->
  exists planText,
    ToString plan = Some planText /\
    qp = lit "User Query: " ++ dq ++ q ++ dq ++ nl ++ nl ++
         lit "Execution Plan:" ++ nl ++ planText.
Proof.
  unfold userQueryWithPlan, convert.
  destruct (ToString plan) as [t|]; cbn [and_then]; [|discriminate].
  intros H. inversion H. eauto.
Qed.

(** ** Results of the adapter *)

Section AdapterResults.
Variable tem : jsval -> jsstring -> jsstring.
Variable cem : jsval -> jsstring.
Variable net : Network.
Variable env : Schedule.
Variable s : Settings.t.

(** On an empty credential the adapter throws at once: the world it
    leaves is the one it found, with the call recorded. *)
Lemma callGenerativeAI_missing_key contents sys w :
  credential s = [] ->
  run net env (callGenerativeAI tem cem s contents sys) w =
  (Rejected (ErrorObject (missingKeyMessage (Settings.provider s))),
   with_call
     (mk_call contents sys
        (Rejected (ErrorObject (missingKeyMessage (Settings.provider s))))) w).
Proof.
  destruct s as [p m [kg kq ko]]; destruct p; cbn; intros ->; reflexivity.
Qed.


(** The messages of a conversation whose texts can be joined. *)
Lemma messagesForApi_wire contents sys :
  joinable contents = true ->
  messagesForApi contents sys =
  Converted ((if is_empty sys then []
              else [ {| cm_role := lit "system"; cm_content := sys |} ]) ++
             map wire contents).
Proof.
  intros HJ. pose proof (messagesForApi_joinable contents sys) as HM.
  destruct (messagesForApi contents sys) as [ms|bad]; [|congruence].
  destruct HM as [_ ->]. reflexivity.
Qed.

(** With a deterministic provider the outcome of the adapter depends on
    its arguments only. *)
Lemma callGenerativeAI_deterministic contents sys env' w1 w2 :
  deterministic net ->
  fst (run net env (callGenerativeAI tem cem s contents sys) w1) =
  fst (run net env' (callGenerativeAI tem cem s contents sys) w2).
Proof.
  intros [Hf Hg].
  unfold callGenerativeAI, readProp, readIndex0, orThrow.
  destruct s as [p m [kg kq ko]]; destruct p;
    cbn [run perform Settings.provider Settings.model Settings.keys
         Keys.google Keys.groq Keys.openrouter];
    repeat (first [ rewrite (Hf (netlog w1) (netlog w2))
                  | rewrite (Hg (netlog w1) (netlog w2))
                  | break_match ];
            cbn [run perform fst snd]);
    reflexivity.
Qed.

(** What the adapter does with a response that is not 2xx, when its
    body is JSON and not [null]: the upstream message when there is one,
    a default otherwise. *)
Lemma callGenerativeAI_error_body contents sys w resp errorData error detail :
  Settings.provider s <> google ->
  credential s <> [] ->
  joinable contents = true ->
  (forall url init, fetch_outcome net (netlog w) url init = Fulfilled resp) ->
  ok resp = false ->
  json resp = Fulfilled errorData ->
  getProp errorData (lit "error") = Some error ->
  ToString (js_or (getPropOpt error (lit "message")) (VStr (lit "Unknown error")))
  = Some detail ->
  fst (run net env (callGenerativeAI tem cem s contents sys) w) =
  Rejected (ErrorObject
              (lit "API Error from " ++ provider_name (Settings.provider s) ++
               lit ": " ++ detail)).
Proof.
  intros Hp Hk HJ Hf Hok Hj Hg Hd.
  unfold callGenerativeAI, readProp, credential, orThrow, convert in *.
  rewrite (messagesForApi_wire _ sys HJ).
  destruct s as [p m [kg kq ko]]; destruct p;
    cbn [run perform Settings.provider Settings.model Settings.keys
         Keys.google Keys.groq Keys.openrouter] in *;
    try congruence.
  - destruct kq; [congruence|]. cbn [is_empty run perform].
    rewrite Hf, Hok. cbn [negb run perform]. rewrite Hj, Hg. cbn [run].
    rewrite Hd. reflexivity.
  - destruct ko; [congruence|]. cbn [is_empty run perform].
    rewrite Hf, Hok. cbn [negb run perform]. rewrite Hj, Hg. cbn [run].
    rewrite Hd. reflexivity.
Qed.
End AdapterResults.

(** ** Settings saved while a request is in flight *)

Lemma same_run_refl w : same_run w w.
Proof. repeat split. Qed.

(** No program reads the settings hook: two runs of one program under two
    schedules of saved settings go through the same steps. *)
Lemma run_same (net : Network) {A : Type} (p : prog A) :
  forall env1 env2 w1 w2,
    same_run w1 w2 ->
    fst (run net env1 p w1) = fst (run net env2 p w2) /\
    same_run (snd (run net env1 p w1)) (snd (run net env2 p w2)).
Proof.
  induction p as [A a|A e|A B p IHp k IHk|A p IHp h IHh|A o|f|b|st| |e|c sy body IH];
    intros env1 env2 w1 w2 Hw; cbn [run].
  - split; [reflexivity | exact Hw].
  - split; [reflexivity | exact Hw].
  - destruct (IHp env1 env2 w1 w2 Hw) as [Hr Hs].
    destruct (run net env1 p w1) as [[a1|e1] u1],
             (run net env2 p w2) as [[a2|e2] u2];
      cbn [fst snd] in *; try discriminate.
    + inversion Hr; subst. apply IHk, Hs.
    + inversion Hr; subst. split; [reflexivity | assumption].
  - destruct (IHp env1 env2 w1 w2 Hw) as [Hr Hs].
    destruct (run net env1 p w1) as [[a1|e1] u1],
             (run net env2 p w2) as [[a2|e2] u2];
      cbn [fst snd] in *; try discriminate.
    + split; assumption.
    + inversion Hr; subst. apply IHh, Hs.
  - destruct Hw as (Hu & Hi & Hc & Hn & Hcalls & Ht).
    destruct o; cbn [perform fst snd]; rewrite ?Hn;
      (split; [reflexivity|]); unfold same_run; cbn;
      rewrite ?Hu, ?Hi, ?Hc, ?Hn, ?Hcalls, ?Ht; repeat split.
  - destruct Hw as (Hu & Hi & Hc & Hn & Hcalls & Ht).
    split; [reflexivity|]. unfold same_run. cbn. rewrite Hu. repeat split; assumption.
  - destruct Hw as (Hu & Hi & Hc & Hn & Hcalls & Ht).
    split; [reflexivity|]. unfold same_run. cbn. rewrite Hu. repeat split; assumption.
  - destruct Hw as (Hu & Hi & Hc & Hn & Hcalls & Ht).
    split; [reflexivity|]. unfold same_run. cbn. rewrite Hu. repeat split; assumption.
  - destruct Hw as (Hu & Hi & Hc & Hn & Hcalls & Ht).
    split; [reflexivity|]. unfold same_run. cbn. repeat split; assumption.
  - destruct Hw as (Hu & Hi & Hc & Hn & Hcalls & Ht).
    split; [reflexivity|]. unfold same_run. cbn. rewrite Hc. repeat split; assumption.
  - destruct (IH env1 env2 w1 w2 Hw) as [Hr Hs].
    destruct (run net env1 body w1) as [r1 u1], (run net env2 body w2) as [r2 u2].
    cbn [fst snd] in *. subst r2. split; [reflexivity|].
    destruct Hs as (Hu & Hi & Hc & Hn & Hcalls & Ht).
    unfold same_run. cbn. rewrite Hcalls. repeat split; assumption.
Qed.

(** The four role instructions are pairwise distinct, so the instruction of
    a call tells its stage. *)
Lemma instructions_distinct :
  NoDup [ STRATEGIST_SYSTEM_INSTRUCTION; INITIAL_SYSTEM_INSTRUCTION;
          REFINEMENT_SYSTEM_INSTRUCTION; SYNTHESIZER_SYSTEM_INSTRUCTION ].
Proof.
  repeat constructor; cbn [In]; intros H;
    repeat (destruct H as [H|H]; [vm_compute in H; discriminate|]); exact H.
Qed.

(** ** The claims *)

(** The next prompt of a trace that has a record for every outcome. *)
Ltac next_prompt Hlen x E :=
  match type of Hlen with
  | context [and_then ?c _] =>
      destruct c as [x|x] eqn:E;
      cbn [expected_calls stage_input and_then map app length Nat.ltb
           Nat.leb firstn skipn Nat.sub fst snd] in Hlen |- *;
      [|discriminate Hlen]
  end.

Section Claims.
Variable tem : jsval -> jsstring -> jsstring.
Variable cem : jsval -> jsstring.
Variable net : Network.
Variable env : Schedule.
Variable msgs : list Message.
Variable s : Settings.t.

(** The outcomes of the calls of a request: those that returned, then the
    one the request ended on, if it ended on a call. *)
Lemma issued_results q w oks e :
  issued w (request_end tem cem net env msgs s q w) =
    expected_calls msgs q [] (map Fulfilled oks ++ ending_results e) ->
  length (issued w (request_end tem cem net env msgs s q w)) =
    length oks + length (ending_results e) ->
  map call_result (issued w (request_end tem cem net env msgs s q w)) =
    map Fulfilled oks ++ ending_results e.
Proof.
  intros Hiss Hlen. rewrite Hiss. apply expected_calls_results.
  rewrite <- Hiss, Hlen, length_app, length_map. reflexivity.
Qed.

(** C1, as amended.  For every user query that is not blank (it keeps at
    least one character once trimmed), a run in which every adapter call
    returns, and in which the results of the first nine are texts, or
    other values that a template literal can hold, issues exactly ten
    adapter calls, in this order: the strategist call on the conversation
    and the query; four initializer calls on the planned turn; four
    refiner calls, the one of slot [i] on the critique of the initial
    answers at [i]; one synthesizer call on the four refined answers.  No
    other adapter call is issued. *)
Theorem C1_ten_calls_in_order q w :
  trim q <> [] ->
  let w' := request_end tem cem net env msgs s q w in
  forallb succeeded (issued w w') = true ->
  forallb interpolable (firstn 9 (issued w w')) = true ->
  exists plan a0 a1 a2 a3 r0 r1 r2 r3 fin qp c0 c1 c2 c3 sc,
    userQueryWithPlan q plan = Converted qp /\
    refinementContext [a0; a1; a2; a3] 0 = Converted c0 /\
    refinementContext [a0; a1; a2; a3] 1 = Converted c1 /\
    refinementContext [a0; a1; a2; a3] 2 = Converted c2 /\
    refinementContext [a0; a1; a2; a3] 3 = Converted c3 /\
    synthesizerContext [r0; r1; r2; r3] = Converted sc /\
    issued w w' =
    [ mk_call (msgs ++ [userTurn q]) STRATEGIST_SYSTEM_INSTRUCTION (Fulfilled plan);
      mk_call (msgs ++ [userTurn qp]) INITIAL_SYSTEM_INSTRUCTION (Fulfilled a0);
      mk_call (msgs ++ [userTurn qp]) INITIAL_SYSTEM_INSTRUCTION (Fulfilled a1);
      mk_call (msgs ++ [userTurn qp]) INITIAL_SYSTEM_INSTRUCTION (Fulfilled a2);
      mk_call (msgs ++ [userTurn qp]) INITIAL_SYSTEM_INSTRUCTION (Fulfilled a3);
      mk_call (msgs ++ [userTurn (withInternalContext qp c0)])
              REFINEMENT_SYSTEM_INSTRUCTION (Fulfilled r0);
      mk_call (msgs ++ [userTurn (withInternalContext qp c1)])
              REFINEMENT_SYSTEM_INSTRUCTION (Fulfilled r1);
      mk_call (msgs ++ [userTurn (withInternalContext qp c2)])
              REFINEMENT_SYSTEM_INSTRUCTION (Fulfilled r2);
      mk_call (msgs ++ [userTurn (withInternalContext qp c3)])
              REFINEMENT_SYSTEM_INSTRUCTION (Fulfilled r3);
      mk_call (msgs ++ [userTurn (withInternalContext qp sc)])
              SYNTHESIZER_SYSTEM_INSTRUCTION (Fulfilled fin) ].
Proof.
  intros Hq w' Hall Hint. subst w'.
  pose proof (issued_results q w) as Hres.
  unfold request_end in *.
  destruct (run net env (handleSubmit tem cem msgs s q) w) as [r w'] eqn:E.
  cbn [snd] in *.
  destruct (handleSubmit_trace _ _ _ _ _ _ _ _ _ _ (is_empty_false _ Hq) E)
    as (oks & en & Hiss & Hlen & Hle & Hend & _).
  specialize (Hres oks en Hiss Hlen). clear E.
  destruct en as [fin|e|bad]; cbn [ending_results] in *.
  - destruct oks as [|plan [|a0 [|a1 [|a2 [|a3 [|r0 [|r1 [|r2 [|r3 [|]]]]]]]]]];
      try discriminate.
    clear Hall Hint Hres Hle Hend. rewrite Hiss in Hlen |- *. clear Hiss.
    cbn [expected_calls stage_input and_then map app length Nat.ltb
         Nat.leb firstn skipn Nat.sub fst snd] in Hlen |- *.
    next_prompt Hlen qp Hqp.
    next_prompt Hlen c0 Hc0.
    next_prompt Hlen c1 Hc1.
    next_prompt Hlen c2 Hc2.
    next_prompt Hlen c3 Hc3.
    next_prompt Hlen sc Hsc.
    exists plan, a0, a1, a2, a3, r0, r1, r2, r3, fin, qp, c0, c1, c2, c3, sc.
    repeat (split; [assumption|]). reflexivity.
  - rewrite succeeded_results, Hres, forallb_app in Hall. cbn in Hall.
    rewrite andb_false_r in Hall. discriminate.
  - rewrite app_nil_r in *. cbn [length] in Hlen.
    rewrite firstn_all2 in Hint by lia.
    rewrite interpolable_results, Hres in Hint.
    destruct (stage_input_some msgs q oks) as [input Hin]; [|congruence].
    clear - Hint. induction oks as [|v oks IH]; [constructor|].
    cbn [map forallb] in Hint. apply andb_prop in Hint as [Hv Hint].
    constructor; [|now apply IH].
    destruct (ToString v); [discriminate | discriminate].
Qed.

(** C2.  If an adapter call of a request fails, it is the last call of
    the request: the calls before it returned, they are the calls of the
    pipeline in order, and no call of a later stage is issued.  The request
    ends with the conversation extended by the query and by one message of
    the model that holds the text of the error, not a partial answer, and
    the loading flag cleared.  When the failure is an [Error], that text
    is its [message]. *)
Theorem C2_failure_ends_request q w c e :
  let w' := request_end tem cem net env msgs s q w in
  In c (issued w w') ->
  call_result c = Rejected e ->
  exists before oks,
    issued w w' = before ++ [c] /\
    forallb succeeded before = true /\
    length before = length oks /\ length oks <= 9 /\
    issued w w' = expected_calls msgs q [] (map Fulfilled oks ++ [Rejected e]) /\
    ui w' = {| messages :=
                 msgs ++ [ userTurn q;
                           {| role := model;
                              parts := [ {| text := VStr (errorMessage e) |} ] |} ];
               isLoading := false;
               loadingStatus := status_of (length oks) |} /\
    (forall m, e = ErrorObject m ->
       messages (ui w') =
         msgs ++ [ userTurn q;
                   {| role := model; parts := [ {| text := VStr m |} ] |} ]).
Proof.
  intros w' Hin He. subst w'.
  destruct (is_empty (trim q)) eqn:Hq.
  { rewrite blank_issues_nothing in Hin by assumption. destruct Hin. }
  pose proof (issued_results q w) as Hres.
  unfold request_end in *.
  destruct (run net env (handleSubmit tem cem msgs s q) w) as [r w'] eqn:E.
  cbn [snd] in *.
  destruct (handleSubmit_trace _ _ _ _ _ _ _ _ _ _ Hq E)
    as (oks & en & Hiss & Hlen & Hle & Hend & Hui & _).
  specialize (Hres oks en Hiss Hlen).
  assert (Hen : en = CallFailed e).
  { assert (Hr : In (Rejected e) (map call_result (issued w w')))
      by (rewrite <- He; now apply in_map).
    rewrite Hres in Hr. apply in_app_or in Hr as [Hr|Hr].
    - apply in_map_iff in Hr as (v & Hv & _). discriminate.
    - destruct en as [fin|e'|bad]; cbn in Hr;
        [ destruct Hr as [Hr|[]]; discriminate
        | destruct Hr as [Hr|[]]; now inversion Hr
        | destruct Hr ]. }
  subst en. cbn [ending_results] in *.
  destruct (expected_calls_snoc msgs q oks (Rejected e) [])
    as (input & Hs & Hsn & Hl0).
  { rewrite <- Hiss, Hlen. cbn. lia. }
  rewrite Hiss, Hsn in Hin. apply in_app_or in Hin as [Hin|[Hin|[]]].
  - pose proof (expected_calls_succeeded msgs q oks []) as Hall.
    rewrite forallb_forall in Hall. specialize (Hall _ Hin).
    unfold succeeded in Hall. rewrite He in Hall. discriminate.
  - subst c.
    exists (expected_calls msgs q [] (map Fulfilled oks)), oks.
    split; [now rewrite Hiss|].
    split; [apply expected_calls_succeeded|].
    split; [exact Hl0|].
    split; [assumption|].
    split; [assumption|].
    split; [exact Hui|].
    intros m ->. rewrite Hui. reflexivity.
Qed.


(** C6.  With a stub provider whose ten calls return the strings plan,
    init0..init3, ref0..ref3 and final, in this order, the request ends
    with the message of the model that holds final, and the turn given
    to the synthesizer call (the tenth) lists ref0, ref1, ref2 and ref3 in
    this order under the labels Refined Response 1 to Refined Response 4,
    after the text of the planned turn. *)
Theorem C6_stub_round_trip q w :
  let w' := request_end tem cem net env msgs s q w in
  map call_result (issued w w') =
    map (fun t => Fulfilled (VStr (lit t)))
      ["plan"; "init0"; "init1"; "init2"; "init3";
       "ref0"; "ref1"; "ref2"; "ref3"; "final"]%string ->
  messages (ui w') =
    msgs ++ [ userTurn q;
              {| role := model; parts := [ {| text := VStr (lit "final") |} ] |} ] /\
  isLoading (ui w') = false /\
  exists c,
    nth_error (issued w w') 9 = Some c /\
    call_systemInstruction c = SYNTHESIZER_SYSTEM_INSTRUCTION /\
    call_contents c =
      msgs ++
      [ userTurn
          ((lit "User Query: " ++ dq ++ q ++ dq ++ nl ++ nl ++
            lit "Execution Plan:" ++ nl ++ lit "plan") ++ nl ++ nl ++
           lit "---INTERNAL CONTEXT---" ++ nl ++
           lit "Here are the four refined responses to the user's query. Your task is to synthesize them into the best single, final answer." ++
           nl ++ nl ++ lit "Refined Response 1:" ++ nl ++ dq ++ lit "ref0" ++ dq ++
           nl ++ nl ++ lit "Refined Response 2:" ++ nl ++ dq ++ lit "ref1" ++ dq ++
           nl ++ nl ++ lit "Refined Response 3:" ++ nl ++ dq ++ lit "ref2" ++ dq ++
           nl ++ nl ++ lit "Refined Response 4:" ++ nl ++ dq ++ lit "ref3" ++ dq) ].
Proof.
  intros w' Hres. subst w'.
  destruct (is_empty (trim q)) eqn:Hq.
  { rewrite blank_issues_nothing in Hres by assumption. discriminate. }
  pose proof (issued_results q w) as Hres'.
  unfold request_end in *.
  destruct (run net env (handleSubmit tem cem msgs s q) w) as [r w'] eqn:E.
  cbn [snd] in *.
  destruct (handleSubmit_trace _ _ _ _ _ _ _ _ _ _ Hq E)
    as (oks & en & Hiss & Hlen & Hle & _ & Hui & _).
  specialize (Hres' oks en Hiss Hlen). rewrite Hres' in Hres.
  rewrite Hiss, Hui. clear Hiss Hui Hres' Hlen E.
  destruct oks as [|v0 [|v1 [|v2 [|v3 [|v4 [|v5 [|v6 [|v7 [|v8 [|v9 oks]]]]]]]]]];
    destruct en as [fin|e|bad];
    cbn [map app ending_results length] in Hres, Hle; try discriminate; try lia.
  inversion Hres; subst; clear Hres.
  split; [reflexivity|]. split; [reflexivity|].
  eexists. split; [reflexivity|]. split; reflexivity.
Qed.

(** C4.  If the credential of the selected provider is the empty string,
    every call of the adapter throws the missing-key error without
    sending anything, and a submission sends no request at all; when the
    query is not blank, its single call is the one that fails and the
    message shown is that of the error. *)
Theorem C4_missing_credential_fails_before_network contents sys q w :
  credential s = [] ->
  run net env (callGenerativeAI tem cem s contents sys) w =
    (Rejected (ErrorObject (missingKeyMessage (Settings.provider s))),
     with_call
       (mk_call contents sys
          (Rejected (ErrorObject (missingKeyMessage (Settings.provider s))))) w) /\
  let w' := request_end tem cem net env msgs s q w in
  sent w w' = [] /\
  (trim q <> [] ->
   length (issued w w') = 1 /\
   messages (ui w') =
     msgs ++ [ userTurn q;
               {| role := model;
                  parts := [ {| text := VStr (missingKeyMessage
                                                (Settings.provider s)) |} ] |} ]).
Proof.
  intros Hk. split; [now apply callGenerativeAI_missing_key|].
  intros w'. subst w'. unfold request_end.
  destruct (is_empty (trim q)) eqn:Hq.
  - rewrite handleSubmit_blank by assumption. split.
    + unfold sent. cbn. apply skipn_length_self.
    + intros Hne. destruct (trim q); [congruence | discriminate].
  - unfold handleSubmit. cbn [run]. rewrite Hq. cbn [run tryBlock].
    rewrite callGenerativeAI_missing_key by assumption.
    cbn [run catchBlock]. split.
    + unfold sent. cbn. apply skipn_length_self.
    + intros _. split.
      * unfold issued. cbn. now rewrite skipn_length_app.
      * cbn. now rewrite <- app_assoc.
Qed.


(** C9.  Settings saved while a request is in flight do not reach it:
    under any schedule of [handleSaveSettings] events served at its
    suspension points, a submission sends the same requests (same
    endpoint, key, model and messages), makes the same adapter calls with
    the same outcomes and ends in the same conversation as under the
    schedule with no event.  Every call uses the settings the render of
    the submission captured. *)
Theorem C9_settings_saved_in_flight_do_not_interfere q w :
  let changed := submit tem cem net env q w in
  let unchanged := submit tem cem net quiet q w in
  fst changed = fst unchanged /\
  netlog (snd changed) = netlog (snd unchanged) /\
  calls (snd changed) = calls (snd unchanged) /\
  ui (snd changed) = ui (snd unchanged) /\
  console (snd changed) = console (snd unchanged).
Proof.
  intros changed unchanged. subst changed unchanged. unfold submit.
  destruct (run_same net
              (handleSubmit tem cem (messages (ui w)) (apiSettings (cfg w)) q)
              env quiet w w (same_run_refl w))
    as (Hr & Hu & Hi & Hc & Hn & Hcalls & Ht).
  repeat split; assumption.
Qed.

Lemma initializer_record q rs i ci :
  1 <= i <= 4 ->
  nth_error (expected_calls msgs q [] rs) i = Some ci ->
  exists plan planText,
    nth_error (expected_calls msgs q [] rs) 0 =
      Some (mk_call (msgs ++ [userTurn q]) STRATEGIST_SYSTEM_INSTRUCTION
              (Fulfilled plan)) /\
    ToString plan = Some planText /\
    call_contents ci =
      msgs ++ [userTurn (lit "User Query: " ++ dq ++ q ++ dq ++ nl ++ nl ++
                         lit "Execution Plan:" ++ nl ++ planText)] /\
    call_systemInstruction ci = INITIAL_SYSTEM_INSTRUCTION.
Proof.
  intros Hi Hn.
  destruct (expected_calls_nth _ _ _ _ _ _ Hn)
    as (vs & r & input & Hf & Hl & _ & Hs & Hc).
  destruct i as [|i]; [lia|].
  destruct vs as [|plan rest]; [discriminate|].
  destruct rs as [|r0 rs]; [discriminate|].
  cbn [firstn map] in Hf. inversion Hf; subst r0.
  cbn [app stage_input] in Hs.
  destruct (userQueryWithPlan q plan) as [planned|bad] eqn:Hqp;
    cbn [and_then] in Hs; [|discriminate].
  destruct (userQueryWithPlan_text _ _ _ Hqp) as (planText & Hpt & ->).
  exists plan, planText. split; [reflexivity|]. split; [exact Hpt|].
  cbn [length] in Hl.
  destruct (Nat.ltb_spec (length rest) 4); [|lia].
  inversion Hs; subst. split; reflexivity.
Qed.

(** C10.  The four initializer calls of a request (its calls number 1
    to 4) get the same arguments: the conversation the render saw,
    followed by the planned turn (the query, then the plan as the text it
    converts to), and the initializer instruction; the slot shows in the
    progress label only.  With a deterministic provider their results are
    equal. *)
Theorem C10_initializers_get_identical_inputs q w i j ci cj :
  1 <= i <= 4 -> 1 <= j <= 4 ->
  let w' := request_end tem cem net env msgs s q w in
  nth_error (issued w w') i = Some ci ->
  nth_error (issued w w') j = Some cj ->
  (exists plan planText,
      nth_error (issued w w') 0 =
        Some (mk_call (msgs ++ [userTurn q]) STRATEGIST_SYSTEM_INSTRUCTION
                (Fulfilled plan)) /\
      ToString plan = Some planText /\
      call_contents ci =
        msgs ++ [userTurn (lit "User Query: " ++ dq ++ q ++ dq ++ nl ++ nl ++
                           lit "Execution Plan:" ++ nl ++ planText)] /\
      call_systemInstruction ci = INITIAL_SYSTEM_INSTRUCTION) /\
  call_contents ci = call_contents cj /\
  call_systemInstruction ci = call_systemInstruction cj /\
  (initializingStatus (i - 1) = initializingStatus (j - 1) -> i = j) /\
  (deterministic net -> call_result ci = call_result cj).
Proof.
  intros Hi Hj w' Hni Hnj. subst w'.
  destruct (is_empty (trim q)) eqn:Hq.
  { rewrite blank_issues_nothing in Hni by assumption. destruct i; discriminate. }
  unfold request_end in *.
  destruct (run net env (handleSubmit tem cem msgs s q) w) as [r w'] eqn:E.
  cbn [snd] in *.
  destruct (handleSubmit_trace _ _ _ _ _ _ _ _ _ _ Hq E)
    as (oks & en & Hiss & _ & _ & _ & _ & _ & Hgen & _).
  rewrite Hiss in *. clear Hiss E.
  destruct (initializer_record _ _ _ _ Hi Hni) as (plan & planText & H0 & Hp & Hci & Hsi).
  destruct (initializer_record _ _ _ _ Hj Hnj) as (plan' & planText' & H0' & Hp' & Hcj & Hsj).
  rewrite H0 in H0'. inversion H0'; subst plan'.
  rewrite Hp in Hp'. inversion Hp'; subst planText'.
  split; [exists plan, planText; auto|].
  split; [congruence|]. split; [congruence|].
  split.
  { assert (Hd : forall a b, 1 <= a <= 4 -> 1 <= b <= 4 ->
              initializingStatus (a - 1) = initializingStatus (b - 1) -> a = b).
    { intros a b Ha Hb.
      destruct a as [|[|[|[|[|a]]]]]; try lia;
        destruct b as [|[|[|[|[|b]]]]]; try lia;
        try reflexivity; vm_compute; discriminate. }
    now apply Hd. }
  intros Hdet.
  rewrite Forall_forall in Hgen.
  destruct (Hgen _ (nth_error_In _ _ Hni)) as [wi <-].
  destruct (Hgen _ (nth_error_In _ _ Hnj)) as [wj <-].
  rewrite Hci, Hcj, Hsi, Hsj.
  now apply callGenerativeAI_deterministic.
Qed.

(** C5.  For every query made of white space only (the empty query
    included), submitting is a no-op: no adapter call is issued, no
    request is sent, and the conversation, the loading flag and the
    progress label are what they were. *)
Theorem C5_blank_query_is_noop q w :
  forallb isWhiteSpace q = true ->
  let w' := request_end tem cem net env msgs s q w in
  issued w w' = [] /\ sent w w' = [] /\ ui w' = ui w /\
  cfg w' = cfg w /\ tick w' = tick w.
Proof.
  intros Hq w'. subst w'. unfold request_end.
  rewrite handleSubmit_blank by now rewrite (trim_blank _ Hq).
  unfold issued, sent. cbn. now rewrite !skipn_length_self.
Qed.
End Claims.

(** C1, as stated, fails: the query made of one space is not empty, its
    run has no failed call, and it issues no adapter call at all. *)
Lemma C1_counterexample :
  let q := lit " " in
  let w := Sample.start Sample.with_google in
  let w' := request_end Sample.tem Sample.cem (Sample.scripted Sample.answers) quiet []
              Sample.with_google q w in
  ~ (q <> [] -> forallb succeeded (issued w w') = true ->
     length (issued w w') = 10).
Proof.
  intros q w w' H.
  assert (H0 : length (issued w w') = 0) by reflexivity.
  rewrite H in H0; [discriminate | discriminate | reflexivity].
Qed.

(** A plan that is not a text.  The provider answers the strategist call
    with an object that has a key named toString: the call returns, the
    template literal of the planned turn throws, and the request ends
    after this one call with the TypeError shown and logged. *)
Example object_plan_ends_the_request :
  let w := Sample.start Sample.with_groq in
  let w' := request_end Sample.tem Sample.cem (Demo.answering Demo.odd_completion)
              quiet [] Sample.with_groq (lit "hi") w in
  map call_result (issued w w') = [Fulfilled Demo.odd_answer] /\
  length (sent w w') = 1 /\
  map (fun m => map text (parts m)) (messages (ui w')) =
    [ [VStr (lit "hi")];
      [VStr (lit "Cannot convert object to primitive value")] ] /\
  console w' = [ErrorObject (lit "Cannot convert object to primitive value")].
Proof. vm_compute. repeat split; reflexivity. Qed.

(** C1 on a scripted provider: ten calls, all of which return. *)
Lemma C1_witness :
  exists plan a0 a1 a2 a3 r0 r1 r2 r3 fin,
    length
      (issued (Sample.start Sample.with_google)
         (request_end Sample.tem Sample.cem (Sample.scripted Sample.answers) quiet
            Sample.earlier Sample.with_google (lit "Why is the sky blue?")
            (Sample.start Sample.with_google))) = 10 /\
    map call_result
      (issued (Sample.start Sample.with_google)
         (request_end Sample.tem Sample.cem (Sample.scripted Sample.answers) quiet
            Sample.earlier Sample.with_google (lit "Why is the sky blue?")
            (Sample.start Sample.with_google))) =
    map Fulfilled [plan; a0; a1; a2; a3; r0; r1; r2; r3; fin].
Proof.
  destruct (C1_ten_calls_in_order Sample.tem Sample.cem
              (Sample.scripted Sample.answers) quiet
              Sample.earlier Sample.with_google (lit "Why is the sky blue?")
              (Sample.start Sample.with_google))
    as (plan & a0 & a1 & a2 & a3 & r0 & r1 & r2 & r3 & fin &
        qp & c0 & c1 & c2 & c3 & sc & _ & _ & _ & _ & _ & _ & H).
  - vm_compute. discriminate.
  - vm_compute. reflexivity.
  - vm_compute. reflexivity.
  - exists plan, a0, a1, a2, a3, r0, r1, r2, r3, fin.
    rewrite H. split; reflexivity.
Defined.

(** C5 on a query of a space, a tab, a no-break space and a line feed. *)
Lemma C5_witness :
  let w := Sample.start Sample.with_google in
  let w' := request_end Sample.tem Sample.cem (Sample.scripted Sample.answers) quiet
              Sample.earlier Sample.with_google [32; 9; 160; 10]%N w in
  issued w w' = [] /\ sent w w' = [] /\ ui w' = ui w /\
  cfg w' = cfg w /\ tick w' = tick w.
Proof.
  apply (C5_blank_query_is_noop Sample.tem Sample.cem
           (Sample.scripted Sample.answers) quiet
           Sample.earlier Sample.with_google [32; 9; 160; 10]%N
           (Sample.start Sample.with_google)).
  reflexivity.
Defined.

(** C8, on the code.  A gateway answers 502 with a page of HTML: reading
    the body as JSON fails, and the adapter throws that failure as it is.
    The error is not the one that carries the default text Unknown error. *)
Theorem C8_non_json_error_body_escapes :
  let out :=
    fst (run Sample.bad_gateway quiet
           (callGenerativeAI Sample.tem Sample.cem Sample.with_groq
              [userTurn (lit "hi")] STRATEGIST_SYSTEM_INSTRUCTION)
           (Sample.start Sample.with_groq)) in
  out = Rejected (ErrorObject (lit "Unexpected token '<', is not valid JSON")) /\
  out <> Rejected (ErrorObject (lit "API Error from groq: Unknown error")).
Proof.
  vm_compute. split; [reflexivity | discriminate].
Qed.

(** The same gateway, seen from the conversation. *)
Example bad_gateway_shown :
  map (fun m => map text (parts m))
    (messages (ui (request_end Sample.tem Sample.cem Sample.bad_gateway quiet []
                     Sample.with_groq (lit "hi") (Sample.start Sample.with_groq)))) =
  [ [VStr (lit "hi")];
    [VStr (lit "Unexpected token '<', is not valid JSON")] ].
Proof. vm_compute. reflexivity. Qed.

(** Bodies that are JSON: the upstream message when there is one, the
    default when there is none, a TypeError on [null]. *)
Example error_body_with_message :
  fst (run (Sample.server_error
              (VObj [ (lit "error", VObj [ (lit "message", VStr (lit "overloaded")) ]) ]))
         quiet
         (callGenerativeAI Sample.tem Sample.cem Sample.with_groq [userTurn (lit "hi")] [])
         (Sample.start Sample.with_groq)) =
  Rejected (ErrorObject (lit "API Error from groq: overloaded")).
Proof. vm_compute. reflexivity. Qed.

Example error_body_without_message :
  fst (run (Sample.server_error (VObj [ (lit "detail", VStr (lit "boom")) ]))
         quiet
         (callGenerativeAI Sample.tem Sample.cem Sample.with_groq [userTurn (lit "hi")] [])
         (Sample.start Sample.with_groq)) =
  Rejected (ErrorObject (lit "API Error from groq: Unknown error")).
Proof. vm_compute. reflexivity. Qed.

Example error_body_null :
  fst (run (Sample.server_error VNull) quiet
         (callGenerativeAI Sample.tem Sample.cem Sample.with_groq [userTurn (lit "hi")] [])
         (Sample.start Sample.with_groq)) =
  Rejected (ErrorObject (lit "Cannot read properties of null (reading 'error')")).
Proof. vm_compute. reflexivity. Qed.

(** A save in flight changes the settings hook, and only it. *)
Example save_in_flight :
  let w := Sample.start Sample.with_groq in
  let changed :=
    snd (submit Sample.tem Sample.cem (Sample.scripted Sample.answers)
           (Sample.busy_user Sample.groq_without_key Sample.with_google)
           (lit "hi") w) in
  let unchanged :=
    snd (submit Sample.tem Sample.cem (Sample.scripted Sample.answers) quiet
           (lit "hi") w) in
  apiSettings (cfg changed) = Sample.groq_without_key /\
  apiSettings (cfg unchanged) = Sample.with_groq /\
  length (netlog changed) = 10 /\
  netlog changed = netlog unchanged.
Proof. vm_compute. repeat split; reflexivity. Qed.

(** C2 on a provider whose third answer is a 429: three calls, and the
    upstream message shown after the query. *)
Lemma C2_witness :
  let w := Sample.start Sample.with_groq in
  let w' := request_end Sample.tem Sample.cem Sample.rate_limited quiet Sample.earlier
              Sample.with_groq (lit "hi") w in
  length (issued w w') = 3 /\
  map (fun m => map text (parts m)) (messages (ui w')) =
    [ [VStr (lit "Hello")]; [VStr (lit "Hi there")]; [VStr (lit "hi")];
      [VStr (lit "API Error from groq: Rate limit reached")] ].
Proof.
  intros w w'.
  destruct (C2_failure_ends_request Sample.tem Sample.cem Sample.rate_limited quiet
              Sample.earlier Sample.with_groq (lit "hi") w
              (nth 2 (issued w w') Sample.no_call)
              (ErrorObject (lit "API Error from groq: Rate limit reached")))
    as (before & oks & Hb & _ & Hl & _ & _ & Hui & _).
  - vm_compute. tauto.
  - vm_compute. reflexivity.
  - fold w' in Hb, Hui. rewrite Hui, Hb, length_app. cbn [length ui messages].
    split; [|reflexivity].
    assert (H3 : length (issued w w') = 3) by (vm_compute; reflexivity).
    rewrite Hb, length_app in H3. exact H3.
Defined.


(** C4 with groq selected and no key for it. *)
Lemma C4_witness :
  let w := Sample.start Sample.groq_without_key in
  let w' := request_end Sample.tem Sample.cem (Sample.scripted Sample.answers) quiet
              Sample.earlier Sample.groq_without_key (lit "hi") w in
  sent w w' = [] /\
  (trim (lit "hi") <> [] ->
   length (issued w w') = 1 /\
   messages (ui w') =
     Sample.earlier ++
     [ userTurn (lit "hi");
       {| role := model;
          parts := [ {| text := VStr (missingKeyMessage groq) |} ] |} ]).
Proof.
  intros w w'.
  apply (C4_missing_credential_fails_before_network Sample.tem Sample.cem
           (Sample.scripted Sample.answers) quiet Sample.earlier
           Sample.groq_without_key [] [] (lit "hi") w).
  vm_compute. reflexivity.
Defined.

(** C6 on the provider that answers with the ten strings, through groq. *)
Lemma C6_witness :
  let w := Sample.start Sample.with_groq in
  let w' := request_end Sample.tem Sample.cem (Sample.scripted Sample.answers) quiet
              Sample.earlier Sample.with_groq (lit "hi") w in
  messages (ui w') =
    Sample.earlier ++
    [ userTurn (lit "hi");
      {| role := model; parts := [ {| text := VStr (lit "final") |} ] |} ] /\
  isLoading (ui w') = false.
Proof.
  intros w w'.
  destruct (C6_stub_round_trip Sample.tem Sample.cem (Sample.scripted Sample.answers)
              quiet Sample.earlier Sample.with_groq (lit "hi") w) as (H1 & H2 & _).
  - vm_compute. reflexivity.
  - split; assumption.
Defined.


(** The same call after an answer that was an object with a key named
    toString: nothing is sent. *)
Example unjoinable_history_is_not_sent :
  let out := run (Sample.scripted Sample.answers) quiet
               (callGenerativeAI Sample.tem Sample.cem Sample.with_groq
                  Demo.odd_history (lit "Be brief."))
               (Sample.start Sample.with_groq) in
  sent (Sample.start Sample.with_groq) (snd out) = [] /\
  fst out = Rejected (ErrorObject (lit "Cannot convert object to primitive value")).
Proof. vm_compute. split; reflexivity. Qed.

(** C10 on a provider that always answers the same: the initializer calls
    of slots 0 and 3 get the same turn and return the same answer. *)
Lemma C10_witness :
  let w := Sample.start Sample.with_google in
  let w' := request_end Sample.tem Sample.cem (Sample.constant (lit "same")) quiet
              Sample.earlier Sample.with_google (lit "hi") w in
  call_contents (nth 1 (issued w w') Sample.no_call) =
    call_contents (nth 4 (issued w w') Sample.no_call) /\
  call_result (nth 1 (issued w w') Sample.no_call) =
    call_result (nth 4 (issued w w') Sample.no_call).
Proof.
  intros w w'.
  destruct (C10_initializers_get_identical_inputs Sample.tem Sample.cem
              (Sample.constant (lit "same")) quiet Sample.earlier
              Sample.with_google (lit "hi") w 1 4
              (nth 1 (issued w w') Sample.no_call)
              (nth 4 (issued w w') Sample.no_call))
    as (_ & H1 & _ & _ & H2).
  - lia.
  - lia.
  - vm_compute. reflexivity.
  - vm_compute. reflexivity.
  - split; [assumption|]. apply H2. split; reflexivity.
Defined.

(** * Further properties *)

(** ** The guard on blank queries *)

Lemma trimStart_head q c r : trimStart q = c :: r -> isWhiteSpace c = false.
Proof.
  induction q as [|a q IH]; cbn; [discriminate|].
  destruct (isWhiteSpace a) eqn:Ha; [exact IH|].
  intros H. inversion H; subst. exact Ha.
Qed.

Lemma trimStart_nil q : trimStart q = [] -> forallb isWhiteSpace q = true.
Proof.
  induction q as [|a q IH]; cbn; [reflexivity|].
  destruct (isWhiteSpace a); [exact IH | discriminate].
Qed.

(** [trim] leaves nothing exactly when every code unit is white space. *)
Lemma trim_nil_iff q : trim q = [] <-> forallb isWhiteSpace q = true.
Proof.
  split; [|apply trim_blank].
  unfold trim, trimEnd. intros H.
  assert (H1 : trimStart (rev (trimStart q)) = []).
  { destruct (trimStart (rev (trimStart q))) as [|a l]; [reflexivity|].
    cbn in H. destruct (rev l); discriminate. }
  destruct (trimStart q) as [|c r] eqn:E; [now apply trimStart_nil|].
  apply trimStart_nil in H1. rewrite forallb_forall in H1.
  pose proof (trimStart_head _ _ _ E) as Hc.
  rewrite (H1 c) in Hc; [discriminate|].
  apply in_rev. rewrite rev_involutive. now left.
Qed.

Lemma nonblank_not_empty q :
  existsb (fun c => negb (isWhiteSpace c)) q = true -> is_empty (trim q) = false.
Proof.
  intros H. apply is_empty_false. intros Ht. apply trim_nil_iff in Ht.
  apply existsb_exists in H as (c & Hin & Hc).
  rewrite forallb_forall in Ht. rewrite (Ht c Hin) in Hc. discriminate.
Qed.

(** ** The value a conversion fails on *)

Lemma convert_bad (v bad : jsval) :
  convert v = CannotConvert bad -> bad = v /\ ToString bad = None.
Proof.
  unfold convert. destruct (ToString v) eqn:E; [discriminate|].
  intros H. inversion H; subst. now split.
Qed.

Lemma join_item_bad (v bad : jsval) :
  join_item v = CannotConvert bad -> bad = v /\ ToString bad = None.
Proof.
  unfold join_item. destruct v; try discriminate; apply convert_bad.
Qed.

Lemma join_items_bad (l : list jsval) (bad : jsval) :
  join_items l = CannotConvert bad -> In bad l /\ ToString bad = None.
Proof.
  induction l as [|v l IH]; cbn [join_items]; [discriminate|].
  destruct (join_item v) as [t|b] eqn:E; cbn [and_then].
  - destruct (join_items l) as [ss|b]; cbn [and_then]; [discriminate|].
    intros H. inversion H; subst. destruct IH as [Hin Hn]; [reflexivity|].
    split; [now right | exact Hn].
  - intros H. inversion H; subst. apply join_item_bad in E as [-> Hn].
    split; [now left | exact Hn].
Qed.

(** The text the messages cannot hold is a text of the conversation. *)
Lemma messagesForApi_bad (contents : list Content) (sys : jsstring) (bad : jsval) :
  messagesForApi contents sys = CannotConvert bad ->
  In bad (flat_map (fun content => map text (parts content)) contents) /\
  ToString bad = None.
Proof.
  unfold messagesForApi.
  destruct (chatMessages contents) as [ms|b] eqn:E; cbn [and_then]; [discriminate|].
  intros H. inversion H; subst. clear H. revert E.
  induction contents as [|c l IH]; cbn [chatMessages flat_map]; [discriminate|].
  unfold chatMessage at 1, join.
  destruct (join_items (map text (parts c))) as [ss|b] eqn:Ej; cbn [and_then].
  - destruct (chatMessages l) as [ms|b]; cbn [and_then]; [discriminate|].
    intros H. inversion H; subst. destruct IH as [Hin Hn]; [reflexivity|].
    split; [apply in_or_app; now right | exact Hn].
  - intros H. inversion H; subst. apply join_items_bad in Ej as [Hin Hn].
    split; [apply in_or_app; now left | exact Hn].
Qed.

Lemma at_index_none (l : list jsval) (i : nat) :
  ToString (at_index l i) = None -> In (at_index l i) l.
Proof.
  unfold at_index. intros H.
  destruct (nth_in_or_default i l VUndefined) as [Hin|Hd]; [exact Hin|].
  rewrite Hd in H. vm_compute in H. discriminate.
Qed.

Lemma filter_index_in {A : Type} (keep : nat -> bool) (l : list A) : forall j x,
  In x (filter_index keep j l) -> In x l.
Proof.
  induction l as [|a l IH]; intros j x; cbn [filter_index]; [auto|].
  destruct (keep j); cbn [In]; [intros [H|H]|intros H]; eauto.
Qed.

Lemma firstn_in {A : Type} (n : nat) (l : list A) (x : A) :
  In x (firstn n l) -> In x l.
Proof.
  revert n. induction l as [|a l IH]; intros [|n]; cbn [firstn In]; auto.
  - intros [].
  - intros [H|H]; eauto.
Qed.

Lemma skipn_in {A : Type} (n : nat) (l : list A) (x : A) :
  In x (skipn n l) -> In x l.
Proof.
  revert n. induction l as [|a l IH]; intros [|n]; cbn [skipn In]; auto.
  intros H. right. eauto.
Qed.

Lemma refinementContext_bad (l : list jsval) (i : nat) (bad : jsval) :
  refinementContext l i = CannotConvert bad -> In bad l /\ ToString bad = None.
Proof.
  unfold refinementContext. intros H.
  destruct (convert (at_index l i)) as [t|b] eqn:E0; cbn [and_then] in H.
  2: { inversion H; subst. apply convert_bad in E0 as [-> E0].
       split; [now apply at_index_none | exact E0]. }
  destruct (convert (at_index _ 0)) as [t1|b] eqn:E1; cbn [and_then] in H.
  2: { inversion H; subst. apply convert_bad in E1 as [-> E1].
       split; [|exact E1]. eapply filter_index_in, at_index_none, E1. }
  destruct (convert (at_index _ 1)) as [t2|b] eqn:E2; cbn [and_then] in H.
  2: { inversion H; subst. apply convert_bad in E2 as [-> E2].
       split; [|exact E2]. eapply filter_index_in, at_index_none, E2. }
  destruct (convert (at_index _ 2)) as [t3|b] eqn:E3; cbn [and_then] in H.
  2: { inversion H; subst. apply convert_bad in E3 as [-> E3].
       split; [|exact E3]. eapply filter_index_in, at_index_none, E3. }
  discriminate.
Qed.

Lemma synthesizerContext_bad (l : list jsval) (bad : jsval) :
  synthesizerContext l = CannotConvert bad -> In bad l /\ ToString bad = None.
Proof.
  unfold synthesizerContext. intros H.
  destruct (convert (at_index l 0)) as [t0|b] eqn:E0; cbn [and_then] in H.
  2: { inversion H; subst. apply convert_bad in E0 as [-> E0].
       split; [now apply at_index_none | exact E0]. }
  destruct (convert (at_index l 1)) as [t1|b] eqn:E1; cbn [and_then] in H.
  2: { inversion H; subst. apply convert_bad in E1 as [-> E1].
       split; [now apply at_index_none | exact E1]. }
  destruct (convert (at_index l 2)) as [t2|b] eqn:E2; cbn [and_then] in H.
  2: { inversion H; subst. apply convert_bad in E2 as [-> E2].
       split; [now apply at_index_none | exact E2]. }
  destruct (convert (at_index l 3)) as [t3|b] eqn:E3; cbn [and_then] in H.
  2: { inversion H; subst. apply convert_bad in E3 as [-> E3].
       split; [now apply at_index_none | exact E3]. }
  discriminate.
Qed.

(** The result a prompt cannot hold is one of the results so far. *)
Lemma stage_input_bad hist q done bad :
  stage_input hist q done = CannotConvert bad ->
  In bad done /\ ToString bad = None.
Proof.
  unfold stage_input. destruct done as [|plan rest]; [discriminate|].
  unfold userQueryWithPlan.
  destruct (convert plan) as [tp|b] eqn:Ep; cbn [and_then].
  2: { intros H. inversion H; subst. apply convert_bad in Ep as [-> Ep].
       split; [now left | exact Ep]. }
  destruct (length rest <? 4); [discriminate|].
  destruct (length rest <? 8).
  - destruct (refinementContext _ _) as [t|b] eqn:Er; cbn [and_then];
      [discriminate|].
    intros H. inversion H; subst. apply refinementContext_bad in Er as [Hin Hn].
    split; [right; eapply firstn_in, Hin | exact Hn].
  - destruct (synthesizerContext _) as [t|b] eqn:Es; cbn [and_then];
      [discriminate|].
    intros H. inversion H; subst. apply synthesizerContext_bad in Es as [Hin Hn].
    split; [right; eapply skipn_in, Hin | exact Hn].
Qed.

Lemma expected_calls_shape hist q (P : call_record -> Prop) :
  (forall done input r,
      stage_input hist q done = Converted input ->
      P (mk_call (fst input) (snd input) r)) ->
  forall rs done, Forall P (expected_calls hist q done rs).
Proof.
  intros HP. induction rs as [|r rs IH]; intros done; cbn [expected_calls].
  - constructor.
  - destruct (stage_input hist q done) as [input|bad] eqn:E; [|constructor].
    constructor; [now apply (HP done)|]. destruct r; [apply IH | constructor].
Qed.

Lemma failures_results (l : list call_record) (e : thrown) :
  In e (failures l) <-> In (Rejected e) (map call_result l).
Proof.
  unfold failures. rewrite in_flat_map, in_map_iff. split.
  - intros (c & Hc & He). exists c. split; [|exact Hc].
    destruct (call_result c); [destruct He|].
    destruct He as [He|[]]. now subst.
  - intros (c & Hr & Hc). exists c. split; [exact Hc|]. rewrite Hr. now left.
Qed.

(** ** More on the adapter *)

Section AdapterMore.
Variable tem : jsval -> jsstring -> jsstring.
Variable cem : jsval -> jsstring.
Variable net : Network.
Variable env : Schedule.
Variable s : Settings.t.

(** X1.  The Google path.  With a key, the adapter makes one call of
    [generateContent] with the key, the model of the settings (the default
    model when it is empty), the conversation and the system instruction
    as they are; its result is the [text] of the response, and a
    rejection of the SDK is thrown as it is. *)
Theorem google_request_and_result contents sys w :
  Settings.provider s = google ->
  Keys.google (Settings.keys s) <> [] ->
  let out := run net env (callGenerativeAI tem cem s contents sys) w in
  let params :=
    {| gc_model := if is_empty (Settings.model s) then DEFAULT_MODEL_NAME
                   else Settings.model s;
       gc_contents := contents;
       gc_systemInstruction := sys |} in
  sent w (snd out) = [ReqGenerate (Keys.google (Settings.keys s)) params] /\
  fst out =
    match generate_outcome net (netlog w) (Keys.google (Settings.keys s)) params with
    | Fulfilled response => Fulfilled (response_text response)
    | Rejected e => Rejected e
    end.
Proof.
  intros Hp Hk out params. subst out params.
  adapter_cases s; try discriminate.
  destruct kg; [congruence|]. cbn [is_empty run perform].
  destruct (generate_outcome net (netlog w) _ _);
    cbn [fst snd with_call suspend with_request netlog];
    rewrite skipn_length_app; split; reflexivity.
Qed.

(** X2.  The headers.  The request of the OpenAI-compatible path, made
    for a conversation whose texts can be joined, carries Authorization
    and Content-Type, and for openrouter, and only for it, HTTP-Referer
    and X-Title. *)
Theorem openai_compatible_headers contents sys w :
  Settings.provider s <> google ->
  credential s <> [] ->
  joinable contents = true ->
  exists url init,
    sent w (snd (run net env (callGenerativeAI tem cem s contents sys) w)) =
      [ReqFetch url init] /\
    headers init =
      [ (lit "Authorization", lit "Bearer " ++ credential s);
        (lit "Content-Type", lit "application/json") ] ++
      match Settings.provider s with
      | openrouter =>
          [ (lit "HTTP-Referer", lit "https://github.com/your-repo/smadr");
            (lit "X-Title", lit "(SMADR) Strategic Multi-Agent Deep Research") ]
      | _ => []
      end.
Proof.
  intros Hp Hk HJ. adapter_cases s; try congruence;
    rewrite (messagesForApi_wire _ sys HJ).
  - destruct kq; [congruence|]. cbn [is_empty run perform].
    repeat (break_match; cbn [run perform]);
      cbn [snd with_call suspend with_request netlog];
      rewrite skipn_length_app; do 2 eexists; split; reflexivity.
  - destruct ko; [congruence|]. cbn [is_empty run perform].
    repeat (break_match; cbn [run perform]);
      cbn [snd with_call suspend with_request netlog];
      rewrite skipn_length_app; do 2 eexists; split; reflexivity.
Qed.

(** X3.  No answer without a 2xx.  Whatever the body of a response that is
    not 2xx holds, the adapter throws. *)
Theorem non_2xx_never_answers contents sys w resp :
  Settings.provider s <> google ->
  credential s <> [] ->
  (forall url init, fetch_outcome net (netlog w) url init = Fulfilled resp) ->
  ok resp = false ->
  exists e, fst (run net env (callGenerativeAI tem cem s contents sys) w) = Rejected e.
Proof.
  intros Hp Hk Hf Hok. adapter_cases s; try congruence.
  - destruct kq; [congruence|]. cbn [is_empty].
    destruct (messagesForApi contents sys); cbn [run perform];
      [|eexists; reflexivity].
    rewrite Hf, Hok. cbn [negb run perform].
    repeat (break_match; cbn [run perform]); eexists; reflexivity.
  - destruct ko; [congruence|]. cbn [is_empty].
    destruct (messagesForApi contents sys); cbn [run perform];
      [|eexists; reflexivity].
    rewrite Hf, Hok. cbn [negb run perform].
    repeat (break_match; cbn [run perform]); eexists; reflexivity.
Qed.

(** X4.  The message of an upstream error.  On a response that is not 2xx
    whose body is a JSON object with a non-empty string at [error.message],
    the adapter throws an [Error] whose message is that string after the
    words API Error from and the name of the provider. *)
Theorem upstream_message_is_carried contents sys w resp fields efields msg :
  Settings.provider s <> google ->
  credential s <> [] ->
  joinable contents = true ->
  (forall url init, fetch_outcome net (netlog w) url init = Fulfilled resp) ->
  ok resp = false ->
  json resp = Fulfilled (VObj fields) ->
  lookup (lit "error") fields = VObj efields ->
  lookup (lit "message") efields = VStr msg ->
  msg <> [] ->
  fst (run net env (callGenerativeAI tem cem s contents sys) w) =
  Rejected (ErrorObject (lit "API Error from " ++ provider_name (Settings.provider s) ++
                         lit ": " ++ msg)).
Proof.
  intros Hp Hk HJ Hf Hok Hj He Hm Hne.
  apply (callGenerativeAI_error_body tem cem net env s contents sys w
           resp (VObj fields) (VObj efields) msg Hp Hk HJ Hf Hok Hj).
  - cbn. now rewrite He.
  - unfold getPropOpt, js_or. cbn [getProp]. rewrite Hm.
    destruct msg; [congruence | reflexivity].
Qed.

(** X5.  The default message.  On a response that is not 2xx whose body is a
    JSON object without [error], or whose [error] has no [message], the
    message of the error ends with Unknown error. *)
Theorem upstream_error_without_message contents sys w resp fields :
  Settings.provider s <> google ->
  credential s <> [] ->
  joinable contents = true ->
  (forall url init, fetch_outcome net (netlog w) url init = Fulfilled resp) ->
  ok resp = false ->
  json resp = Fulfilled (VObj fields) ->
  getPropOpt (lookup (lit "error") fields) (lit "message") = VUndefined ->
  fst (run net env (callGenerativeAI tem cem s contents sys) w) =
  Rejected (ErrorObject (lit "API Error from " ++ provider_name (Settings.provider s) ++
                         lit ": Unknown error")).
Proof.
  intros Hp Hk HJ Hf Hok Hj Hm.
  apply (callGenerativeAI_error_body tem cem net env s contents sys w
           resp (VObj fields) (lookup (lit "error") fields) (lit "Unknown error")
           Hp Hk HJ Hf Hok Hj).
  - reflexivity.
  - now rewrite Hm.
Qed.

(** X6.  An empty list of choices.  On a 2xx response whose body has
    [choices: []], reading [message] of [choices[0]] throws the TypeError
    of the engine. *)
Theorem empty_choices_throw contents sys w resp data :
  Settings.provider s <> google ->
  credential s <> [] ->
  joinable contents = true ->
  (forall url init, fetch_outcome net (netlog w) url init = Fulfilled resp) ->
  ok resp = true ->
  json resp = Fulfilled data ->
  getProp data (lit "choices") = Some (VArr []) ->
  fst (run net env (callGenerativeAI tem cem s contents sys) w) =
  Rejected (ErrorObject (tem VUndefined (lit "message"))).
Proof.
  intros Hp Hk HJ Hf Hok Hj Hc. adapter_cases s; try congruence;
    rewrite (messagesForApi_wire _ sys HJ).
  - destruct kq; [congruence|]. cbn [is_empty run perform].
    rewrite Hf, Hok. cbn [negb run perform]. rewrite Hj, Hc. reflexivity.
  - destruct ko; [congruence|]. cbn [is_empty run perform].
    rewrite Hf, Hok. cbn [negb run perform]. rewrite Hj, Hc. reflexivity.
Qed.

(** X7.  A message without content.  On a 2xx response whose first choice
    has a [message] object without [content], the adapter does not fail:
    it returns [undefined]. *)
Theorem missing_content_is_undefined contents sys w resp data choices choice mfields :
  Settings.provider s <> google ->
  credential s <> [] ->
  joinable contents = true ->
  (forall url init, fetch_outcome net (netlog w) url init = Fulfilled resp) ->
  ok resp = true ->
  json resp = Fulfilled data ->
  getProp data (lit "choices") = Some choices ->
  getIndex0 choices = Some choice ->
  getProp choice (lit "message") = Some (VObj mfields) ->
  lookup (lit "content") mfields = VUndefined ->
  fst (run net env (callGenerativeAI tem cem s contents sys) w) = Fulfilled VUndefined.
Proof.
  intros Hp Hk HJ Hf Hok Hj Hc H0 Hm Hct. adapter_cases s; try congruence;
    rewrite (messagesForApi_wire _ sys HJ).
  - destruct kq; [congruence|]. cbn [is_empty run perform].
    rewrite Hf, Hok. cbn [negb run perform]. rewrite Hj, Hc. cbn [run].
    rewrite H0. cbn [run]. rewrite Hm. cbn [run getProp]. now rewrite Hct.
  - destruct ko; [congruence|]. cbn [is_empty run perform].
    rewrite Hf, Hok. cbn [negb run perform]. rewrite Hj, Hc. cbn [run].
    rewrite H0. cbn [run]. rewrite Hm. cbn [run getProp]. now rewrite Hct.
Qed.

(** X8.  A transport failure.  When the network rejects the request of a
    call that can be sent (a credential, and on the OpenAI-compatible path
    texts that can be joined), the adapter throws the rejection as it is,
    after that one request: it does not try again. *)
Theorem transport_failure_is_not_retried contents sys w e :
  credential s <> [] ->
  Settings.provider s = google \/ joinable contents = true ->
  (forall url init, fetch_outcome net (netlog w) url init = Rejected e) ->
  (forall key params, generate_outcome net (netlog w) key params = Rejected e) ->
  let out := run net env (callGenerativeAI tem cem s contents sys) w in
  fst out = Rejected e /\ length (sent w (snd out)) = 1.
Proof.
  intros Hk HJ Hf Hg out. subst out. adapter_cases s.
  - destruct kg; [congruence|]. cbn [is_empty run perform]. rewrite Hg.
    cbn [fst snd with_call suspend with_request netlog].
    now rewrite skipn_length_app.
  - destruct HJ as [HJ|HJ]; [discriminate|].
    rewrite (messagesForApi_wire _ sys HJ).
    destruct kq; [congruence|]. cbn [is_empty run perform]. rewrite Hf.
    cbn [fst snd with_call suspend with_request netlog].
    now rewrite skipn_length_app.
  - destruct HJ as [HJ|HJ]; [discriminate|].
    rewrite (messagesForApi_wire _ sys HJ).
    destruct ko; [congruence|]. cbn [is_empty run perform]. rewrite Hf.
    cbn [fst snd with_call suspend with_request netlog].
    now rewrite skipn_length_app.
Qed.

(** X21.  A text that cannot be joined.  On the OpenAI-compatible path,
    with a credential, a conversation that holds a text that cannot be
    converted to a string (an object with a key named toString, kept from
    an earlier answer) makes the adapter throw the TypeError of that text
    while it builds the messages: no request is sent. *)
Theorem unjoinable_text_fails_before_the_request contents sys w :
  Settings.provider s <> google ->
  credential s <> [] ->
  joinable contents = false ->
  let out := run net env (callGenerativeAI tem cem s contents sys) w in
  exists bad,
    In bad (flat_map (fun content => map text (parts content)) contents) /\
    ToString bad = None /\
    fst out = Rejected (ErrorObject (cem bad)) /\
    sent w (snd out) = [].
Proof.
  intros Hp Hk HJ out. subst out.
  pose proof (messagesForApi_joinable contents sys) as HM.
  pose proof (messagesForApi_bad contents sys) as HB.
  adapter_cases s; try congruence.
  - destruct kq; [congruence|]. cbn [is_empty].
    destruct (messagesForApi contents sys) as [ms|bad];
      [destruct HM; congruence|].
    destruct (HB bad eq_refl) as [Hin Hn]. exists bad.
    cbn [run fst snd]. repeat (split; [assumption || reflexivity|]).
    cbn. apply skipn_length_self.
  - destruct ko; [congruence|]. cbn [is_empty].
    destruct (messagesForApi contents sys) as [ms|bad];
      [destruct HM; congruence|].
    destruct (HB bad eq_refl) as [Hin Hn]. exists bad.
    cbn [run fst snd]. repeat (split; [assumption || reflexivity|]).
    cbn. apply skipn_length_self.
Qed.
End AdapterMore.

(** ** More on the orchestrator *)

Section OrchestratorMore.
Variable tem : jsval -> jsstring -> jsstring.
Variable cem : jsval -> jsstring.
Variable net : Network.
Variable env : Schedule.
Variable msgs : list Message.
Variable s : Settings.t.

(** X9.  The guard lets through every query that has a character that is
    not white space, and the query goes out as typed, not trimmed: the
    user message appended to the conversation and the turn of the first
    call hold the input with its leading and trailing white space. *)
Theorem nonblank_query_is_sent_as_typed q w :
  existsb (fun c => negb (isWhiteSpace c)) q = true ->
  let w' := request_end tem cem net env msgs s q w in
  (exists r, nth_error (issued w w') 0 =
             Some (mk_call (msgs ++ [userTurn q]) STRATEGIST_SYSTEM_INSTRUCTION r)) /\
  firstn (length msgs + 1) (messages (ui w')) = msgs ++ [userTurn q].
Proof.
  intros Hq w'. subst w'. unfold request_end.
  apply nonblank_not_empty in Hq.
  destruct (run net env (handleSubmit tem cem msgs s q) w) as [r w'] eqn:E.
  cbn [snd].
  destruct (handleSubmit_trace _ _ _ _ _ _ _ _ _ _ Hq E)
    as (oks & en & Hiss & _ & _ & Hend & Hui & _).
  rewrite Hiss, Hui. cbn [messages]. split.
  - destruct oks; [destruct en; [| |discriminate Hend]|]; eexists; reflexivity.
  - replace (msgs ++ [userTurn q; closing (ending_outcome cem en)])
      with ((msgs ++ [userTurn q]) ++ [closing (ending_outcome cem en)])
      by now rewrite <- app_assoc.
    rewrite firstn_app.
    replace (length msgs + 1 - length (msgs ++ [userTurn q])) with 0
      by (rewrite length_app; cbn; lia).
    rewrite firstn_all2 by (rewrite length_app; cbn; lia).
    cbn. now rewrite app_nil_r.
Qed.

(** X10.  Every submission settles.  On a query that is not blank
    [handleSubmit] never throws; it ends with the input cleared, the
    loading flag down, and the conversation longer by exactly two messages,
    the query and one message of the model. *)
Theorem every_submission_settles q w :
  trim q <> [] ->
  let out := run net env (handleSubmit tem cem msgs s q) w in
  fst out = Fulfilled tt /\
  inputField (snd out) = [] /\
  isLoading (ui (snd out)) = false /\
  exists t,
    messages (ui (snd out)) =
      msgs ++ [ userTurn q; {| role := model; parts := [ {| text := t |} ] |} ].
Proof.
  intros Hq out. subst out.
  destruct (run net env (handleSubmit tem cem msgs s q) w) as [r w'] eqn:E.
  cbn [fst snd].
  destruct (handleSubmit_trace _ _ _ _ _ _ _ _ _ _ (is_empty_false _ Hq) E)
    as (oks & en & _ & _ & _ & _ & Hui & Hi & _ & Hr & _).
  rewrite Hui. cbn [isLoading messages]. repeat split; auto.
  eexists. reflexivity.
Qed.

(** X11.  The requests of a submission.  Whatever the query and the answers,
    a submission sends at most one request per adapter call, at most ten
    in all, and every one of them goes to the provider of the captured
    settings with their key and model. *)
Theorem requests_use_the_captured_settings q w :
  let w' := request_end tem cem net env msgs s q w in
  Forall (from_settings s) (sent w w') /\
  length (sent w w') <= length (issued w w') /\
  length (issued w w') <= 10.
Proof.
  intros w'. subst w'. unfold request_end.
  destruct (is_empty (trim q)) eqn:Hq.
  { rewrite handleSubmit_blank by assumption. unfold sent, issued. cbn.
    rewrite !skipn_length_self. cbn. repeat split; [constructor | lia | lia]. }
  destruct (run net env (handleSubmit tem cem msgs s q) w) as [r w'] eqn:E.
  cbn [snd].
  destruct (handleSubmit_trace _ _ _ _ _ _ _ _ _ _ Hq E)
    as (oks & en & _ & Hlen & Hle & _ & _ & _ & _ & _ & _ & reqs & Hn & Hf & Hl).
  rewrite (sent_app _ _ _ Hn), Hl.
  split; [assumption|]. split.
  - destruct (sends s msgs); lia.
  - rewrite Hlen. destruct en; cbn; lia.
Qed.

(** X12.  With a credential, each adapter call of a submission sends exactly
    one request, none is skipped and none is repeated, when the calls can
    be sent: through Google, or on a conversation whose texts can be
    joined.  Through the other providers a conversation with a text that
    cannot be joined sends nothing. *)
Theorem one_request_per_call q w :
  credential s <> [] ->
  let w' := request_end tem cem net env msgs s q w in
  (Settings.provider s = google \/ joinable msgs = true ->
   length (sent w w') = length (issued w w')) /\
  (Settings.provider s <> google -> joinable msgs = false -> sent w w' = []).
Proof.
  intros Hk w'. subst w'. unfold request_end.
  destruct (is_empty (trim q)) eqn:Hq.
  { rewrite handleSubmit_blank by assumption. unfold sent, issued. cbn.
    rewrite !skipn_length_self. split; reflexivity. }
  destruct (run net env (handleSubmit tem cem msgs s q) w) as [r w'] eqn:E.
  cbn [snd].
  destruct (handleSubmit_trace _ _ _ _ _ _ _ _ _ _ Hq E)
    as (oks & en & _ & _ & _ & _ & _ & _ & _ & _ & _ & reqs & Hn & Hf & Hl).
  rewrite (sent_app _ _ _ Hn). unfold sends in Hl.
  rewrite (is_empty_false _ Hk) in Hl. cbn [negb andb] in Hl. split.
  - intros [Hp|HJ]; [now rewrite Hp in Hl|].
    rewrite HJ in Hl. now destruct (Settings.provider s).
  - intros Hp HJ. rewrite HJ in Hl.
    destruct (Settings.provider s); [congruence| |];
      now destruct reqs.
Qed.

(** X13.  The console.  A submission writes to [console.error] at most
    once: the error that ends the request, which is also the one whose
    text it shows.  When a call fails it is the error of that call;
    when no call fails it is the TypeError of a result that the next
    prompt cannot hold.  Nothing is written when the query is blank, or
    when the ten calls return. *)
Theorem console_gets_the_failure q w :
  let w' := request_end tem cem net env msgs s q w in
  exists caught,
    console w' = console w ++ caught /\
    length caught <= 1 /\
    (forall e, In e (failures (issued w w')) -> caught = [e]) /\
    (forall e, caught = [e] ->
       messages (ui w') =
         msgs ++ [ userTurn q;
                   {| role := model;
                      parts := [ {| text := VStr (errorMessage e) |} ] |} ] /\
       (failures (issued w w') = [] ->
        exists v, e = ErrorObject (cem v) /\ ToString v = None /\
                  In (Fulfilled v) (map call_result (issued w w')))) /\
    (caught = [] <->
     trim q = [] \/
     (length (issued w w') = 10 /\ forallb succeeded (issued w w') = true)).
Proof.
  intros w'. subst w'.
  destruct (is_empty (trim q)) eqn:Hq.
  { exists []. rewrite blank_issues_nothing by assumption.
    unfold request_end. rewrite handleSubmit_blank by assumption. cbn.
    rewrite app_nil_r. split; [reflexivity|]. split; [lia|].
    split; [intros e []|]. split; [discriminate|].
    split; [|reflexivity]. intros _. left. now destruct (trim q). }
  pose proof (issued_results tem cem net env msgs s q w) as Hres.
  unfold request_end in *.
  destruct (run net env (handleSubmit tem cem msgs s q) w) as [r w'] eqn:E.
  cbn [snd] in *.
  destruct (handleSubmit_trace _ _ _ _ _ _ _ _ _ _ Hq E)
    as (oks & en & Hiss & Hlen & Hle & Hend & Hui & _ & _ & _ & Hcon & _).
  specialize (Hres oks en Hiss Hlen).
  assert (Hno : forall e, ~ In (Rejected e) (map Fulfilled oks)).
  { intros e H. apply in_map_iff in H as (v & Hv & _). discriminate. }
  assert (Hq' : trim q <> []) by (destruct (trim q); [discriminate | discriminate]).
  exists (ending_errors cem en). split; [exact Hcon|].
  split; [destruct en; cbn; lia|].
  split.
  { intros e He. apply failures_results in He. rewrite Hres in He.
    apply in_app_or in He as [He|He]; [now apply Hno in He|].
    destruct en; cbn in He |- *;
      [ destruct He as [He|[]]; discriminate
      | destruct He as [He|[]]; now inversion He
      | destruct He ]. }
  split.
  { intros e He. split.
    - rewrite Hui. cbn [messages]. unfold ending_errors in He.
      destruct (ending_outcome cem en); [discriminate|].
      inversion He; subst. reflexivity.
    - intros Hf. destruct en as [fin|e'|bad]; cbn in He.
      + discriminate.
      + exfalso. assert (Hin : In e' (failures (issued w w'))).
        { apply failures_results. rewrite Hres. apply in_or_app. right. now left. }
        rewrite Hf in Hin. destruct Hin.
      + inversion He; subst. apply stage_input_bad in Hend as [Hin Hn].
        exists bad. split; [reflexivity|]. split; [exact Hn|].
        rewrite Hres. apply in_or_app. left. now apply in_map. }
  split.
  - intros He. right. destruct en as [fin|e'|bad]; try discriminate.
    split; [rewrite Hlen, Hend; reflexivity|].
    rewrite succeeded_results, Hres, forallb_app. cbn.
    rewrite andb_true_r. clear. induction oks; cbn; auto.
  - intros [Ht|[H10 Hall]]; [congruence|].
    destruct en as [fin|e'|bad]; [reflexivity | |].
    + rewrite succeeded_results, Hres, forallb_app in Hall. cbn in Hall.
      rewrite andb_false_r in Hall. discriminate.
    + rewrite Hlen in H10. cbn in H10. lia.
Qed.

(** X14.  What every call is made on.  Each adapter call of a submission,
    in runs that fail as in runs that succeed, gets the conversation the
    render captured followed by exactly one turn of the user, under one of
    the four role instructions: the intermediate answers never become
    turns of their own. *)
Theorem calls_carry_the_conversation q w :
  let w' := request_end tem cem net env msgs s q w in
  Forall (fun c =>
            (exists t, call_contents c = msgs ++ [userTurn t]) /\
            In (call_systemInstruction c)
               [ STRATEGIST_SYSTEM_INSTRUCTION; INITIAL_SYSTEM_INSTRUCTION;
                 REFINEMENT_SYSTEM_INSTRUCTION; SYNTHESIZER_SYSTEM_INSTRUCTION ])
         (issued w w').
Proof.
  intros w'. subst w'.
  destruct (is_empty (trim q)) eqn:Hq.
  { rewrite blank_issues_nothing by assumption. constructor. }
  unfold request_end.
  destruct (run net env (handleSubmit tem cem msgs s q) w) as [r w'] eqn:E.
  cbn [snd].
  destruct (handleSubmit_trace _ _ _ _ _ _ _ _ _ _ Hq E)
    as (oks & en & Hiss & _).
  rewrite Hiss. apply expected_calls_shape.
  intros done input r0. unfold stage_input.
  destruct done as [|plan rest].
  - intros H. inversion H; subst.
    cbn [mk_call call_contents call_systemInstruction fst snd].
    split; [eexists; reflexivity | now left].
  - destruct (userQueryWithPlan q plan) as [qp|bad]; cbn [and_then];
      [|discriminate].
    destruct (length rest <? 4); [|destruct (length rest <? 8)].
    + intros H. inversion H; subst.
      cbn [mk_call call_contents call_systemInstruction fst snd].
      split; [eexists; reflexivity | cbn; tauto].
    + destruct (refinementContext _ _) as [context|bad]; cbn [and_then];
        [|discriminate].
      intros H. inversion H; subst.
      cbn [mk_call call_contents call_systemInstruction fst snd].
      split; [eexists; reflexivity | cbn; tauto].
    + destruct (synthesizerContext _) as [context|bad]; cbn [and_then];
        [|discriminate].
      intros H. inversion H; subst.
      cbn [mk_call call_contents call_systemInstruction fst snd].
      split; [eexists; reflexivity | cbn; tauto].
Qed.

(** X15.  The rows of the message list after a submission.  When a request
    on a query that is not blank has ended, the list shows the download
    button on one row only, the new message of the model (the answer, or
    the text of the error), which also carries the agent label. *)
Theorem download_button_on_the_closing_message q w :
  trim q <> [] ->
  let u := ui (request_end tem cem net env msgs s q w) in
  exists m t,
    nth_error (messages u) (length msgs + 1) = Some m /\
    firstPartText m = Some t /\
    showsAgentLabel m = true /\
    forall index msg,
      nth_error (messages u) index = Some msg ->
      (showsDownload u index msg = true <-> index = length msgs + 1).
Proof.
  intros Hq u. subst u. unfold request_end.
  destruct (run net env (handleSubmit tem cem msgs s q) w) as [r w'] eqn:E.
  cbn [snd].
  destruct (handleSubmit_trace _ _ _ _ _ _ _ _ _ _ (is_empty_false _ Hq) E)
    as (oks & en & _ & _ & _ & _ & Hui & _).
  rewrite Hui. cbn [messages].
  set (last := ending_outcome cem en).
  assert (Hlast : nth_error (msgs ++ [userTurn q; closing last]) (length msgs + 1)
                  = Some (closing last)).
  { rewrite nth_error_app2 by lia.
    replace (length msgs + 1 - length msgs) with 1 by lia. reflexivity. }
  exists (closing last). eexists.
  split; [exact Hlast|]. split; [reflexivity|]. split; [reflexivity|].
  intros index msg Hn. unfold showsDownload. cbn [messages isLoading negb].
  rewrite andb_true_r, length_app. cbn [length].
  split.
  - intros H. apply andb_prop in H as [_ H]. apply Nat.eqb_eq in H. lia.
  - intros ->. rewrite Hlast in Hn. inversion Hn; subst.
    cbn. apply Nat.eqb_eq. lia.
Qed.

(** X22.  A result that is not a text.  When every call of a request on a
    query that is not blank returns and yet fewer than ten calls are made,
    one of the results could not be converted to a string for the next
    prompt: the request ends there, with the TypeError of that conversion
    logged and shown in place of an answer, and the loading flag cleared. *)
Theorem uninterpolable_result_ends_the_request q w :
  trim q <> [] ->
  let w' := request_end tem cem net env msgs s q w in
  forallb succeeded (issued w w') = true ->
  length (issued w w') < 10 ->
  exists v,
    In (Fulfilled v) (map call_result (issued w w')) /\
    ToString v = None /\
    console w' = console w ++ [ErrorObject (cem v)] /\
    messages (ui w') =
      msgs ++ [ userTurn q;
                {| role := model; parts := [ {| text := VStr (cem v) |} ] |} ] /\
    isLoading (ui w') = false.
Proof.
  intros Hq w' Hall Hlt. subst w'.
  pose proof (issued_results tem cem net env msgs s q w) as Hres.
  unfold request_end in *.
  destruct (run net env (handleSubmit tem cem msgs s q) w) as [r w'] eqn:E.
  cbn [snd] in *.
  destruct (handleSubmit_trace _ _ _ _ _ _ _ _ _ _ (is_empty_false _ Hq) E)
    as (oks & en & Hiss & Hlen & Hle & Hend & Hui & _ & _ & _ & Hcon & _).
  specialize (Hres oks en Hiss Hlen).
  destruct en as [fin|e|bad].
  - rewrite Hlen, Hend in Hlt. cbn in Hlt. lia.
  - rewrite succeeded_results, Hres, forallb_app in Hall. cbn in Hall.
    rewrite andb_false_r in Hall. discriminate.
  - apply stage_input_bad in Hend as [Hin Hn]. exists bad.
    split; [rewrite Hres; apply in_or_app; left; now apply in_map|].
    split; [exact Hn|]. split; [exact Hcon|].
    rewrite Hui. split; reflexivity.
Qed.
End OrchestratorMore.

(** X16.  The closing message is part of the next request.  After a request
    on a query that is not blank, the next submission sends the
    conversation extended by that query and by the message that closed the
    request, be it the answer or the text of an error, as a turn of the
    model, followed by the new query. *)
Theorem next_request_carries_the_closing_message tem cem net env q1 q2 w :
  trim q1 <> [] -> trim q2 <> [] ->
  let w1 := snd (submit tem cem net env q1 w) in
  let w2 := snd (submit tem cem net env q2 w1) in
  exists m r,
    role m = model /\
    messages (ui w1) = messages (ui w) ++ [userTurn q1; m] /\
    nth_error (issued w1 w2) 0 =
      Some (mk_call (messages (ui w) ++ [userTurn q1; m; userTurn q2])
              STRATEGIST_SYSTEM_INSTRUCTION r).
Proof.
  intros H1 H2 w1 w2. subst w1 w2. unfold submit.
  destruct (run net env (handleSubmit tem cem (messages (ui w)) (apiSettings (cfg w)) q1) w)
    as [r1 w1] eqn:E1.
  cbn [snd].
  destruct (handleSubmit_trace _ _ _ _ _ _ _ _ _ _ (is_empty_false _ H1) E1)
    as (oks1 & en1 & _ & _ & _ & _ & Hui1 & _).
  destruct (run net env (handleSubmit tem cem (messages (ui w1)) (apiSettings (cfg w1)) q2) w1)
    as [r2 w2] eqn:E2.
  cbn [snd].
  destruct (handleSubmit_trace _ _ _ _ _ _ _ _ _ _ (is_empty_false _ H2) E2)
    as (oks2 & en2 & Hiss2 & _ & _ & Hend2 & _).
  rewrite Hiss2, Hui1. cbn [messages]. exists (closing (ending_outcome cem en1)).
  destruct oks2; [destruct en2; [| |discriminate Hend2]|];
    eexists; (split; [reflexivity|]); (split; [reflexivity|]);
    cbn [map app expected_calls nth_error stage_input fst snd ending_results];
    now rewrite <- app_assoc.
Qed.

(** ** The loading indicator *)

(** X17.  Every progress label the orchestrator sets gets the class and the
    number of bars of its stage: one bar for the strategist and for the
    synthesizer, four for the initializers and for the refiners, whatever
    the slot. *)
Theorem progress_labels_get_their_stage i :
  (getLoadingClass strategizingStatus = strategizing /\
   barCount strategizingStatus = 1) /\
  (getLoadingClass (initializingStatus i) = initial /\
   barCount (initializingStatus i) = 4) /\
  (getLoadingClass (refiningStatus i) = refining /\
   barCount (refiningStatus i) = 4) /\
  (getLoadingClass synthesizingStatus = synthesizing /\
   barCount synthesizingStatus = 1).
Proof.
  repeat split; vm_compute; reflexivity.
Qed.

(** ** The settings dialog *)

Lemma dialog_edits edits : forall l c,
  forallb is_edit edits = true ->
  fold_left dialog_step edits ({| isSettingsOpen := true; localSettings := l |}, c) =
  ({| isSettingsOpen := true;
      localSettings := fold_left (fun l ev => edit ev l) edits l |}, c).
Proof.
  induction edits as [|ev edits IH]; intros l c H; [reflexivity|].
  cbn [forallb] in H. apply andb_prop in H as [Hev H].
  cbn [fold_left]. rewrite <- (IH _ _ H). f_equal.
  destruct ev; try discriminate; reflexivity.
Qed.

(** X18.  Cancel discards.  From a closed dialog: opening it, editing the
    fields in any way and cancelling leaves the settings and the store as
    they were, and the dialog closed, showing the saved settings. *)
Theorem dialog_cancel_discards edits d c :
  isSettingsOpen d = false ->
  forallb is_edit edits = true ->
  fold_left dialog_step (ClickSettings :: edits ++ [ClickCancel]) (d, c) =
  ({| isSettingsOpen := false; localSettings := apiSettings c |}, c).
Proof.
  intros Hd He. cbn [fold_left dialog_step]. rewrite Hd.
  rewrite fold_left_app, (dialog_edits _ _ _ He). reflexivity.
Qed.

(** X19.  Save stores what the dialog shows.  From a closed dialog: opening
    it, editing the fields and saving sets the settings hook and the store
    to the saved settings with the edits applied in order, and a restart of
    the application starts from them. *)
Theorem dialog_save_stores edits d c env_google env_groq env_openrouter :
  isSettingsOpen d = false ->
  forallb is_edit edits = true ->
  let s' := fold_left (fun l ev => edit ev l) edits (apiSettings c) in
  let after := fold_left dialog_step (ClickSettings :: edits ++ [ClickSave]) (d, c) in
  after = ({| isSettingsOpen := false; localSettings := s' |},
           {| apiSettings := s'; localStorage := Some s' |}) /\
  initialApiSettings env_google env_groq env_openrouter (localStorage (snd after)) = s'.
Proof.
  intros Hd He s' after. subst s' after. cbn [fold_left dialog_step]. rewrite Hd.
  rewrite fold_left_app, (dialog_edits _ _ _ He). split; reflexivity.
Qed.

(** X20.  Only Save writes the settings.  Whatever is done with the dialog,
    as long as Save is not clicked the settings hook and the store do not
    change, so the next submission uses the settings of before. *)
Theorem settings_change_only_on_save evs : forall d c,
  existsb (fun ev => match ev with ClickSave => true | _ => false end) evs = false ->
  snd (fold_left dialog_step evs (d, c)) = c.
Proof.
  induction evs as [|ev evs IH]; intros d c H; [reflexivity|].
  cbn [existsb] in H. apply orb_false_elim in H as [Hev H].
  cbn [fold_left].
  destruct (dialog_step (d, c) ev) as [d' c'] eqn:E.
  assert (c' = c).
  { unfold dialog_step in E. destruct (isSettingsOpen d), ev;
      try discriminate; inversion E; reflexivity. }
  subst c'. now apply IH.
Qed.

(** ** Instances *)

(** The Google path with the sample settings, whose model is empty. *)
Lemma google_request_and_result_witness :
  let w := Sample.start Sample.with_google in
  let out := run (Sample.scripted Sample.answers) quiet
               (callGenerativeAI Sample.tem Sample.cem Sample.with_google Sample.earlier
                  (lit "Be brief.")) w in
  let params :=
    {| gc_model := if is_empty (Settings.model Sample.with_google)
                   then DEFAULT_MODEL_NAME else Settings.model Sample.with_google;
       gc_contents := Sample.earlier;
       gc_systemInstruction := lit "Be brief." |} in
  sent w (snd out) =
    [ReqGenerate (Keys.google (Settings.keys Sample.with_google)) params] /\
  fst out =
    match generate_outcome (Sample.scripted Sample.answers) (netlog w)
            (Keys.google (Settings.keys Sample.with_google)) params with
    | Fulfilled response => Fulfilled (response_text response)
    | Rejected e => Rejected e
    end.
Proof.
  apply (google_request_and_result Sample.tem Sample.cem (Sample.scripted Sample.answers) quiet
           Sample.with_google Sample.earlier (lit "Be brief.")
           (Sample.start Sample.with_google)).
  - reflexivity.
  - discriminate.
Defined.

Lemma openai_compatible_headers_witness :
  exists url init,
    sent (Sample.start Demo.with_openrouter)
      (snd (run (Sample.scripted Sample.answers) quiet
              (callGenerativeAI Sample.tem Sample.cem Demo.with_openrouter Sample.earlier [])
              (Sample.start Demo.with_openrouter))) = [ReqFetch url init] /\
    length (headers init) = 4.
Proof.
  destruct (openai_compatible_headers Sample.tem Sample.cem (Sample.scripted Sample.answers) quiet
              Demo.with_openrouter Sample.earlier [] (Sample.start Demo.with_openrouter))
    as (url & init & H1 & H2).
  - discriminate.
  - discriminate.
  - reflexivity.
  - exists url, init. split; [exact H1|]. rewrite H2. reflexivity.
Defined.

Lemma non_2xx_never_answers_witness :
  exists e,
    fst (run Sample.bad_gateway quiet
           (callGenerativeAI Sample.tem Sample.cem Sample.with_groq Sample.earlier [])
           (Sample.start Sample.with_groq)) = Rejected e.
Proof.
  apply (non_2xx_never_answers Sample.tem Sample.cem Sample.bad_gateway quiet Sample.with_groq
           Sample.earlier [] (Sample.start Sample.with_groq)
           {| status := 502;
              json := Rejected (ErrorObject
                                  (lit "Unexpected token '<', is not valid JSON")) |}).
  - discriminate.
  - discriminate.
  - intros url init. reflexivity.
  - reflexivity.
Defined.

Lemma upstream_message_is_carried_witness :
  fst (run (Sample.server_error (VObj Demo.error_body)) quiet
         (callGenerativeAI Sample.tem Sample.cem Sample.with_groq Sample.earlier [])
         (Sample.start Sample.with_groq)) =
  Rejected (ErrorObject (lit "API Error from " ++ provider_name groq ++
                         lit ": " ++ lit "The model is overloaded")).
Proof.
  apply (upstream_message_is_carried Sample.tem Sample.cem
           (Sample.server_error (VObj Demo.error_body)) quiet Sample.with_groq
           Sample.earlier [] (Sample.start Sample.with_groq)
           {| status := 500; json := Fulfilled (VObj Demo.error_body) |}
           Demo.error_body Demo.overloaded (lit "The model is overloaded")).
  - discriminate.
  - discriminate.
  - reflexivity.
  - intros url init. reflexivity.
  - reflexivity.
  - reflexivity.
  - vm_compute. reflexivity.
  - vm_compute. reflexivity.
  - discriminate.
Defined.

Lemma upstream_error_without_message_witness :
  fst (run (Sample.server_error (VObj Demo.detail_body)) quiet
         (callGenerativeAI Sample.tem Sample.cem Demo.with_openrouter Sample.earlier [])
         (Sample.start Demo.with_openrouter)) =
  Rejected (ErrorObject (lit "API Error from " ++ provider_name openrouter ++
                         lit ": Unknown error")).
Proof.
  apply (upstream_error_without_message Sample.tem Sample.cem
           (Sample.server_error (VObj Demo.detail_body)) quiet Demo.with_openrouter
           Sample.earlier [] (Sample.start Demo.with_openrouter)
           {| status := 500; json := Fulfilled (VObj Demo.detail_body) |}
           Demo.detail_body).
  - discriminate.
  - discriminate.
  - reflexivity.
  - intros url init. reflexivity.
  - reflexivity.
  - reflexivity.
  - vm_compute. reflexivity.
Defined.

Lemma empty_choices_throw_witness :
  fst (run (Demo.answering Demo.no_choices) quiet
         (callGenerativeAI Sample.tem Sample.cem Sample.with_groq Sample.earlier [])
         (Sample.start Sample.with_groq)) =
  Rejected (ErrorObject (Sample.tem VUndefined (lit "message"))).
Proof.
  apply (empty_choices_throw Sample.tem Sample.cem (Demo.answering Demo.no_choices) quiet
           Sample.with_groq Sample.earlier [] (Sample.start Sample.with_groq)
           {| status := 200; json := Fulfilled Demo.no_choices |} Demo.no_choices).
  - discriminate.
  - discriminate.
  - reflexivity.
  - intros url init. reflexivity.
  - reflexivity.
  - reflexivity.
  - vm_compute. reflexivity.
Defined.

Lemma missing_content_is_undefined_witness :
  fst (run (Demo.answering Demo.no_content) quiet
         (callGenerativeAI Sample.tem Sample.cem Sample.with_groq Sample.earlier [])
         (Sample.start Sample.with_groq)) = Fulfilled VUndefined.
Proof.
  apply (missing_content_is_undefined Sample.tem Sample.cem (Demo.answering Demo.no_content) quiet
           Sample.with_groq Sample.earlier [] (Sample.start Sample.with_groq)
           {| status := 200; json := Fulfilled Demo.no_content |} Demo.no_content
           (VArr [ VObj [ (lit "message", Demo.message_without_content) ] ])
           (VObj [ (lit "message", Demo.message_without_content) ])
           [ (lit "role", VStr (lit "assistant")) ]).
  - discriminate.
  - discriminate.
  - reflexivity.
  - intros url init. reflexivity.
  - reflexivity.
  - reflexivity.
  - vm_compute. reflexivity.
  - reflexivity.
  - vm_compute. reflexivity.
  - vm_compute. reflexivity.
Defined.

Lemma transport_failure_is_not_retried_witness :
  let out := run Demo.offline quiet
               (callGenerativeAI Sample.tem Sample.cem Sample.with_google Sample.earlier [])
               (Sample.start Sample.with_google) in
  fst out = Rejected (ErrorObject (lit "Failed to fetch")) /\
  length (sent (Sample.start Sample.with_google) (snd out)) = 1.
Proof.
  apply (transport_failure_is_not_retried Sample.tem Sample.cem Demo.offline quiet
           Sample.with_google Sample.earlier [] (Sample.start Sample.with_google)
           (ErrorObject (lit "Failed to fetch"))).
  - discriminate.
  - left. reflexivity.
  - intros url init. reflexivity.
  - intros key params. reflexivity.
Defined.

Lemma nonblank_query_is_sent_as_typed_witness :
  let w := Sample.start Sample.with_google in
  let w' := request_end Sample.tem Sample.cem (Sample.scripted Sample.answers) quiet
              Sample.earlier Sample.with_google Demo.padded_query w in
  (exists r, nth_error (issued w w') 0 =
             Some (mk_call (Sample.earlier ++ [userTurn Demo.padded_query])
                     STRATEGIST_SYSTEM_INSTRUCTION r)) /\
  firstn (length Sample.earlier + 1) (messages (ui w')) =
    Sample.earlier ++ [userTurn Demo.padded_query].
Proof.
  apply (nonblank_query_is_sent_as_typed Sample.tem Sample.cem (Sample.scripted Sample.answers)
           quiet Sample.earlier Sample.with_google Demo.padded_query
           (Sample.start Sample.with_google)).
  vm_compute. reflexivity.
Defined.

Lemma every_submission_settles_witness :
  let out := run Demo.offline quiet
               (handleSubmit Sample.tem Sample.cem Sample.earlier Sample.with_groq (lit "hi"))
               (Sample.start Sample.with_groq) in
  fst out = Fulfilled tt /\
  inputField (snd out) = [] /\
  isLoading (ui (snd out)) = false /\
  exists t,
    messages (ui (snd out)) =
      Sample.earlier ++
      [ userTurn (lit "hi"); {| role := model; parts := [ {| text := t |} ] |} ].
Proof.
  apply (every_submission_settles Sample.tem Sample.cem Demo.offline quiet Sample.earlier
           Sample.with_groq (lit "hi") (Sample.start Sample.with_groq)).
  vm_compute. discriminate.
Defined.

Lemma one_request_per_call_witness :
  let w := Sample.start Sample.with_groq in
  let w' := request_end Sample.tem Sample.cem Sample.rate_limited quiet Sample.earlier
              Sample.with_groq (lit "hi") w in
  length (sent w w') = length (issued w w').
Proof.
  apply (one_request_per_call Sample.tem Sample.cem Sample.rate_limited quiet
           Sample.earlier Sample.with_groq (lit "hi") (Sample.start Sample.with_groq)).
  - discriminate.
  - right. reflexivity.
Defined.

Lemma download_button_on_the_closing_message_witness :
  let u := ui (request_end Sample.tem Sample.cem Sample.bad_gateway quiet Sample.earlier
                 Sample.with_groq (lit "hi") (Sample.start Sample.with_groq)) in
  exists m t,
    nth_error (messages u) (length Sample.earlier + 1) = Some m /\
    firstPartText m = Some t /\
    showsAgentLabel m = true /\
    forall index msg,
      nth_error (messages u) index = Some msg ->
      (showsDownload u index msg = true <-> index = length Sample.earlier + 1).
Proof.
  apply (download_button_on_the_closing_message Sample.tem Sample.cem Sample.bad_gateway quiet
           Sample.earlier Sample.with_groq (lit "hi") (Sample.start Sample.with_groq)).
  vm_compute. discriminate.
Defined.

Lemma next_request_carries_the_closing_message_witness :
  let w := Sample.start Sample.with_groq in
  let w1 := snd (submit Sample.tem Sample.cem Sample.bad_gateway quiet (lit "hi") w) in
  let w2 := snd (submit Sample.tem Sample.cem Sample.bad_gateway quiet (lit "again") w1) in
  exists m r,
    role m = model /\
    messages (ui w1) = messages (ui w) ++ [userTurn (lit "hi"); m] /\
    nth_error (issued w1 w2) 0 =
      Some (mk_call (messages (ui w) ++ [userTurn (lit "hi"); m; userTurn (lit "again")])
              STRATEGIST_SYSTEM_INSTRUCTION r).
Proof.
  apply (next_request_carries_the_closing_message Sample.tem Sample.cem Sample.bad_gateway quiet
           (lit "hi") (lit "again") (Sample.start Sample.with_groq)).
  - vm_compute. discriminate.
  - vm_compute. discriminate.
Defined.

Lemma dialog_cancel_discards_witness :
  fold_left dialog_step (ClickSettings :: Demo.edits ++ [ClickCancel])
    (Demo.closed_dialog Sample.with_google, Demo.stored Sample.with_google) =
  ({| isSettingsOpen := false;
      localSettings := apiSettings (Demo.stored Sample.with_google) |},
   Demo.stored Sample.with_google).
Proof.
  apply (dialog_cancel_discards Demo.edits (Demo.closed_dialog Sample.with_google)
           (Demo.stored Sample.with_google)); reflexivity.
Defined.

Lemma dialog_save_stores_witness :
  let s' := fold_left (fun l ev => edit ev l) Demo.edits
              (apiSettings (Demo.stored Sample.with_google)) in
  let after := fold_left dialog_step (ClickSettings :: Demo.edits ++ [ClickSave])
                 (Demo.closed_dialog Sample.with_google,
                  Demo.stored Sample.with_google) in
  after = ({| isSettingsOpen := false; localSettings := s' |},
           {| apiSettings := s'; localStorage := Some s' |}) /\
  initialApiSettings [] [] [] (localStorage (snd after)) = s'.
Proof.
  apply (dialog_save_stores Demo.edits (Demo.closed_dialog Sample.with_google)
           (Demo.stored Sample.with_google) [] [] []); reflexivity.
Defined.

Lemma settings_change_only_on_save_witness :
  snd (fold_left dialog_step
         (ClickSettings :: Demo.edits ++ [ClickCancel; ClickSettings; TypeModel []])
         (Demo.closed_dialog Sample.with_google, Demo.stored Sample.with_google)) =
  Demo.stored Sample.with_google.
Proof.
  apply (settings_change_only_on_save
           (ClickSettings :: Demo.edits ++ [ClickCancel; ClickSettings; TypeModel []])
           (Demo.closed_dialog Sample.with_google) (Demo.stored Sample.with_google)).
  reflexivity.
Defined.

(** Groq after an answer that was an object with a key named toString:
    the adapter throws before the request. *)
Lemma unjoinable_text_fails_before_the_request_witness :
  let out := run (Sample.scripted Sample.answers) quiet
               (callGenerativeAI Sample.tem Sample.cem Sample.with_groq
                  Demo.odd_history [])
               (Sample.start Sample.with_groq) in
  exists bad,
    In bad (flat_map (fun content => map text (parts content)) Demo.odd_history) /\
    ToString bad = None /\
    fst out = Rejected (ErrorObject (Sample.cem bad)) /\
    sent (Sample.start Sample.with_groq) (snd out) = [].
Proof.
  apply (unjoinable_text_fails_before_the_request Sample.tem Sample.cem
           (Sample.scripted Sample.answers) quiet Sample.with_groq
           Demo.odd_history [] (Sample.start Sample.with_groq)).
  - discriminate.
  - discriminate.
  - reflexivity.
Defined.

(** A provider whose answers are objects with a key named toString: the
    request ends after the strategist call. *)
Lemma uninterpolable_result_ends_the_request_witness :
  let w := Sample.start Sample.with_groq in
  let w' := request_end Sample.tem Sample.cem (Demo.answering Demo.odd_completion)
              quiet Sample.earlier Sample.with_groq (lit "hi") w in
  exists v,
    In (Fulfilled v) (map call_result (issued w w')) /\
    ToString v = None /\
    console w' = console w ++ [ErrorObject (Sample.cem v)] /\
    messages (ui w') =
      Sample.earlier ++
      [ userTurn (lit "hi");
        {| role := model; parts := [ {| text := VStr (Sample.cem v) |} ] |} ] /\
    isLoading (ui w') = false.
Proof.
  apply (uninterpolable_result_ends_the_request Sample.tem Sample.cem
           (Demo.answering Demo.odd_completion) quiet Sample.earlier
           Sample.with_groq (lit "hi") (Sample.start Sample.with_groq)).
  - vm_compute. discriminate.
  - vm_compute. reflexivity.
  - vm_compute. lia.
Defined.

(** The console on the gateway that answers 502: one error, the one shown. *)
Example console_on_a_bad_gateway :
  let w := Sample.start Sample.with_groq in
  let w' := request_end Sample.tem Sample.cem Sample.bad_gateway quiet Sample.earlier
              Sample.with_groq (lit "hi") w in
  console w' = [ErrorObject (lit "Unexpected token '<', is not valid JSON")] /\
  failures (issued w w') =
    [ErrorObject (lit "Unexpected token '<', is not valid JSON")].
Proof. vm_compute. split; reflexivity. Qed.

(** The edits of the sample, saved: the settings are those of groq with
    its key, and the key of Google is kept. *)
Example dialog_save_sample :
  apiSettings
    (snd (fold_left dialog_step (ClickSettings :: Demo.edits ++ [ClickSave])
            (Demo.closed_dialog Sample.with_google, Demo.stored Sample.with_google))) =
  Sample.with_groq.
Proof. vm_compute. reflexivity. Qed.
